(** * fast_assign_true: index sets to logical masks

    A shallow embedding of [classes/SparseLabels/lib/fast_assign_true.c],
    the MEX gateway that turns a cell array of uint64 index vectors into a
    cell array of logical column vectors of a common size.

    The gateway talks to its host through the MEX array interface
    ([mex.h]).  The arrays handed in by the caller are read-only values;
    the arrays the gateway creates live in a store of handles, because the
    code writes through pointers into them and destroys them again on its
    error path. *)

From Stdlib Require Import ZArith Floats.SpecFloat.
From stdpp Require Import gmap strings list fin_maps.

Local Open Scope Z_scope.

(** ** Host interface: array classes and argument values *)

(** The class identifiers of [matrix.h]. *)
Inductive mxClassID :=
| mxUNKNOWN_CLASS | mxCELL_CLASS | mxSTRUCT_CLASS | mxLOGICAL_CLASS
| mxCHAR_CLASS | mxVOID_CLASS | mxDOUBLE_CLASS | mxSINGLE_CLASS
| mxINT8_CLASS | mxUINT8_CLASS | mxINT16_CLASS | mxUINT16_CLASS
| mxINT32_CLASS | mxUINT32_CLASS | mxINT64_CLASS | mxUINT64_CLASS
| mxFUNCTION_CLASS.

#[global] Instance mxClassID_eq_dec : EqDecision mxClassID.
Proof. solve_decision. Defined.

(** Classes whose contents this gateway never reads. *)
Inductive opaque_class :=
| OStruct | OChar | OSingle | OInt8 | OUint8 | OInt16 | OUint16
| OInt32 | OUint32 | OInt64 | OFunction.

Definition opaque_class_id (c : opaque_class) : mxClassID :=
  match c with
  | OStruct => mxSTRUCT_CLASS | OChar => mxCHAR_CLASS
  | OSingle => mxSINGLE_CLASS | OInt8 => mxINT8_CLASS
  | OUint8 => mxUINT8_CLASS | OInt16 => mxINT16_CLASS
  | OUint16 => mxUINT16_CLASS | OInt32 => mxINT32_CLASS
  | OUint32 => mxUINT32_CLASS | OInt64 => mxINT64_CLASS
  | OFunction => mxFUNCTION_CLASS
  end.

(** A double is an IEEE-754 binary64 datum ([spec_float]); a uint64 is a
    [Z] in [0, 2^64).  Elements are kept in the linear (column-major)
    order in which [mxGetCell] and [mxGetData] index them.  A cell holds
    a pointer to an array, and the pointer is NULL ([None]) as long as the
    cell has not been populated (the cells of [cell(n,1)], for one). *)
#[warnings="-register-all"]
Inductive mxArray :=
| mxCell (cells : list (option mxArray))
| mxDouble (pr : list spec_float)
| mxUint64 (data : list Z)
| mxLogical (data : list bool)
| mxOpaque (cls : opaque_class) (numel : nat).

Definition mxGetClassID (a : mxArray) : mxClassID :=
  match a with
  | mxCell _ => mxCELL_CLASS
  | mxDouble _ => mxDOUBLE_CLASS
  | mxUint64 _ => mxUINT64_CLASS
  | mxLogical _ => mxLOGICAL_CLASS
  | mxOpaque c _ => opaque_class_id c
  end.

Definition mxGetNumberOfElements (a : mxArray) : nat :=
  match a with
  | mxCell cells => length cells
  | mxDouble pr => length pr
  | mxUint64 data => length data
  | mxLogical data => length data
  | mxOpaque _ n => n
  end.

(** ** Arrays created by the gateway *)

(** Handles of created arrays (the pointers the host returns). *)
Abbreviation handle := nat (only parsing).

Inductive obj :=
| ObjCell (cells : list (option handle))
| ObjLogical (data : list bool).

Record state := mkState {
  heap : gmap nat obj;      (* live arrays created during the call *)
  next : handle;            (* next unused handle *)
  plhs0 : option handle     (* plhs[0], unset until the last line *)
}.

Definition init_state : state := mkState ∅ 0%nat None.

(** ** Outcomes and the gateway monad *)

(** What C and the host interface leave undefined and this code can
    reach: a store outside an array, a double that does not fit [size_t],
    a read through a NULL pointer, an array destroyed a second time. *)
Inductive undefined :=
| OutOfBoundsWrite (h : handle) (index : Z)
| UnrepresentableSize (d : spec_float)
| NullPointer
| DoubleFree (h : handle)
| BadAccess.

(** How a run ends: it comes back, it leaves through
    [mexErrMsgIdAndTxt], or it reaches a step without defined behaviour.
    [Undefined] names the first such step and says nothing about what an
    actual run does from there on: it may crash, and it may as well carry
    on, return or raise an error later. *)
Inductive outcome (A : Type) :=
| Done (a : A) (s : state)
| Raised (id msg : string) (s : state)
| Undefined (u : undefined).
Arguments Done {A} a s.
Arguments Raised {A} id msg s.
Arguments Undefined {A} u.

Definition mex (A : Type) : Type := state → outcome A.

#[global] Instance mex_ret : MRet mex := λ A a s, Done a s.

#[global] Instance mex_bind : MBind mex := λ A B f m s,
  match m s with
  | Done a s' => f a s'
  | Raised id msg s' => Raised id msg s'
  | Undefined u => Undefined u
  end.

Definition undef {A} (u : undefined) : mex A := λ _, Undefined u.

(** [mexErrMsgIdAndTxt] does not return to the gateway: control goes back
    to the host with the identifier and the message. *)
Definition mexErrMsgIdAndTxt (id msg : string) : mex () :=
  λ s, Raised id msg s.

(** [if (c) { body }] *)
Definition when (c : bool) (body : mex ()) : mex () :=
  if c then body else mret ().

(** [fuel] rounds of a counting loop that stands at [i]. *)
Fixpoint for_steps (fuel : nat) (i : nat) (body : nat → mex ()) : mex () :=
  match fuel with
  | O => mret ()
  | S fuel' => body i ;; for_steps fuel' (S i) body
  end.

(** [for (size_t i = lo; i < hi; i++) body]: the body runs at [lo],
    [lo + 1], ..., [hi - 1], unless a round does not come back.  The
    counters of this code range over element counts, so they are kept as
    [nat]. *)
Definition for_loop (lo hi : nat) (body : nat → mex ()) : mex () :=
  for_steps (hi - lo)%nat lo body.

(** ** Host interface: operations *)

(** [prhs[i]] *)
Definition arg (prhs : list mxArray) (i : nat) : mex mxArray :=
  match prhs !! i with
  | Some a => mret a
  | None => undef BadAccess
  end.

(** [mxGetCell] on an argument: the pointer in cell [i], NULL or not. *)
Definition mxGetCell_arg (a : mxArray) (i : nat) : mex (option mxArray) :=
  match a with
  | mxCell cells =>
      match cells !! i with
      | Some c => mret c
      | None => undef BadAccess
      end
  | _ => undef BadAccess
  end.

(** Reading an array through a pointer, as [mxGetClassID(num_indices)]
    is the first to do at line 48: a NULL pointer has no array behind
    it. *)
Definition deref (p : option mxArray) : mex mxArray :=
  match p with
  | Some a => mret a
  | None => undef NullPointer
  end.

(** [mxGetScalar]: the first element of a double array. *)
Definition mxGetScalar (a : mxArray) : mex spec_float :=
  match a with
  | mxDouble (d :: _) => mret d
  | _ => undef BadAccess
  end.

(** [mxGetData(a)], read as a pointer to uint64_t. *)
Definition mxGetData (a : mxArray) : list Z :=
  match a with
  | mxUint64 data => data
  | _ => []
  end.

(** [ptr[j]] on argument data. *)
Definition load (ptr : list Z) (j : nat) : mex Z :=
  match ptr !! j with
  | Some v => mret v
  | None => undef BadAccess
  end.

(** The integral part of a finite double: the fraction is discarded. *)
Definition integral_part (m : positive) (e : Z) : Z := Z.shiftl (Z.pos m) e.

(** The conversion of [size_t size = mxGetScalar(in_size)], with a 64-bit
    [size_t]: a finite double is truncated toward zero, and the conversion
    is defined only when the integral part fits the type. *)
Definition double_to_size_t (d : spec_float) : option Z :=
  match d with
  | S754_zero _ => Some 0
  | S754_finite sign m e =>
      let t := integral_part m e in
      if sign then (if t =? 0 then Some 0 else None)
      else if t <? 2 ^ 64 then Some t else None
  | S754_infinity _ | S754_nan => None
  end.

Definition to_size_t (d : spec_float) : mex Z :=
  match double_to_size_t d with
  | Some n => mret n
  | None => undef (UnrepresentableSize d)
  end.

Definition alloc (o : obj) : mex handle :=
  λ s, Done (next s) (mkState (<[next s := o]> (heap s)) (S (next s)) (plhs0 s)).

(** [mxCreateCellMatrix(m, n)]: every cell starts out NULL. *)
Definition mxCreateCellMatrix (m n : nat) : mex handle :=
  alloc (ObjCell (replicate (m * n) None)).

(** [mxCreateLogicalMatrix(m, n)]: every element starts out false. *)
Definition mxCreateLogicalMatrix (m n : Z) : mex handle :=
  alloc (ObjLogical (replicate (Z.to_nat (m * n)) false)).

(** [mxGetCell] on a created cell matrix. *)
Definition mxGetCell (h : handle) (i : nat) : mex (option handle) :=
  λ s, match heap s !! h with
       | Some (ObjCell cells) =>
           match cells !! i with
           | Some c => Done c s
           | None => Undefined BadAccess
           end
       | _ => Undefined BadAccess
       end.

(** [mxSetCell] *)
Definition mxSetCell (h : handle) (i : nat) (v : handle) : mex () :=
  λ s, match heap s !! h with
       | Some (ObjCell cells) =>
           if decide (i < length cells)%nat
           then Done () (mkState (<[h := ObjCell (<[i := Some v]> cells)]> (heap s))
                                 (next s) (plhs0 s))
           else Undefined BadAccess
       | _ => Undefined BadAccess
       end.

(** The array behind [h] leaves the store. *)
Definition release (h : handle) : mex () :=
  λ s, Done () (mkState (delete h (heap s)) (next s) (plhs0 s)).

(** Destroying the array behind [h]: the array must still be there
    (destroying it a second time is undefined), and with a cell matrix
    go the arrays in its cells, each destroyed the same way, before the
    matrix itself.  [fuel] bounds the nesting of cell matrices. *)
Fixpoint destroy (fuel : nat) (h : handle) : mex () :=
  λ s, match heap s !! h with
       | None => Undefined (DoubleFree h)
       | Some (ObjLogical _) => release h s
       | Some (ObjCell cells) =>
           match fuel with
           | O => Undefined BadAccess
           | S fuel' =>
               foldr (λ c rest, match c with
                                | Some hc => destroy fuel' hc ;; rest
                                | None => rest
                                end)
                     (release h) cells s
           end
       end.

(** [mxDestroyArray]: a NULL pointer is ignored; otherwise the array is
    destroyed together with what it holds (the cells of a cell matrix).
    Nesting cannot be deeper than there are arrays in the store. *)
Definition mxDestroyArray (p : option handle) : mex () :=
  λ s, match p with
       | Some h => destroy (size (heap s)) h s
       | None => Done () s
       end.

(** [mxGetLogicals(h)[v] = b]: a plain store through the data pointer.
    Nothing in C checks [v] against the extent of the array. *)
Definition store_logical (h : handle) (v : Z) (b : bool) : mex () :=
  λ s, match heap s !! h with
       | Some (ObjLogical data) =>
           if decide (0 ≤ v < Z.of_nat (length data))
           then Done () (mkState (<[h := ObjLogical (<[Z.to_nat v := b]> data)]> (heap s))
                                 (next s) (plhs0 s))
           else Undefined (OutOfBoundsWrite h v)
       | _ => Undefined BadAccess
       end.

(** [plhs[0] = h] *)
Definition set_plhs0 (h : handle) : mex () :=
  λ s, Done () (mkState (heap s) (next s) (Some h)).

(** ** The gateway *)

Definition main_id : string := "fast_assign_true:main".

Definition mexFunction (nlhs nrhs : Z) (prhs : list mxArray) : mex () :=
  when (bool_decide (nrhs ≠ 2))
    (mexErrMsgIdAndTxt main_id "Wrong number of inputs.") ;;
  when (bool_decide (nlhs ≠ 1))
    (mexErrMsgIdAndTxt main_id "Wrong number of outputs.") ;;
  in_indices ← arg prhs 0 ;
  in_size ← arg prhs 1 ;
  let indices_id := mxGetClassID in_indices in
  let size_id := mxGetClassID in_size in
  when (bool_decide (indices_id ≠ mxCELL_CLASS))
    (mexErrMsgIdAndTxt main_id "Indices must be cell array.") ;;
  when (bool_decide (size_id ≠ mxDOUBLE_CLASS))
    (mexErrMsgIdAndTxt main_id "Size must be double.") ;;
  let n_indices := mxGetNumberOfElements in_indices in
  let n_size := mxGetNumberOfElements in_size in
  when (bool_decide (n_size ≠ 1%nat))
    (mexErrMsgIdAndTxt main_id "Size must be scalar.") ;;
  size ← mxGetScalar in_size ≫= to_size_t ;
  out ← mxCreateCellMatrix n_indices 1 ;
  for_loop 0 n_indices (λ i,
    num_indices ← mxGetCell_arg in_indices i ≫= deref ;
    when (bool_decide (mxGetClassID num_indices ≠ mxUINT64_CLASS))
      (for_loop 0 i (λ j, mxGetCell out j ≫= mxDestroyArray) ;;
       mxDestroyArray (Some out) ;;
       mexErrMsgIdAndTxt main_id "Indices must be uint64.") ;;
    let n_num_indices := mxGetNumberOfElements num_indices in
    let num_inds_ptr := mxGetData num_indices in
    logical_inds ← mxCreateLogicalMatrix size 1 ;
    for_loop 0 n_num_indices (λ j,
      v ← load num_inds_ptr j ;
      store_logical logical_inds v true) ;;
    mxSetCell out i logical_inds) ;;
  set_plhs0 out.

(** ** Calls and what they return *)

(** The mask behind a cell of the output. *)
Definition read_mask (s : state) (c : option handle) : option (list bool) :=
  h ← c ;
  match heap s !! h with
  | Some (ObjLogical data) => Some data
  | _ => None
  end.

(** The value the caller finds in [plhs[0]]. *)
Definition output (s : state) : option (list (list bool)) :=
  h ← plhs0 s ;
  match heap s !! h with
  | Some (ObjCell cells) => mapM (read_mask s) cells
  | _ => None
  end.

(** A call from the host: fresh store, output slot unset. *)
Definition call (nlhs nrhs : Z) (prhs : list mxArray) : outcome () :=
  mexFunction nlhs nrhs prhs init_state.

(** The masks a call returns, if it returns. *)
Definition result (nlhs nrhs : Z) (prhs : list mxArray) : option (list (list bool)) :=
  match call nlhs nrhs prhs with
  | Done _ s => output s
  | _ => None
  end.

(** The usual call [fast_assign_true(indices, size)] with one output. *)
Definition convert (indexBatch : list (option mxArray)) (length : spec_float) :=
  result 1 2 [mxCell indexBatch; mxDouble [length]].

(** Doubles used in the examples: integers, 2.7 and -0.5. *)
Definition double_of_Z (n : Z) : spec_float :=
  match n with
  | Z0 => S754_zero false
  | Zpos p => S754_finite false p 0
  | Zneg p => S754_finite true p 0
  end.

(* 2.7 rounded to binary64: 0x400599999999999A *)
Definition double_2_7 : spec_float := S754_finite false 6079859496950170 (-51).
(* -0.5 *)
Definition double_neg_half : spec_float := S754_finite true 4503599627370496 (-53).

(** ** The mask of one index set, as a function

    What the inner loop leaves in a buffer [m]: every listed position is
    set, in the order listed. *)

Definition set_true (m : list bool) (v : Z) : list bool := <[Z.to_nat v := true]> m.

Definition mask_of (size : Z) (inds : list Z) : list bool :=
  foldl set_true (replicate (Z.to_nat (size * 1)) false) inds.

(** Positions named by an index set. *)
Definition positions (inds : list Z) : list nat := Z.to_nat <$> inds.

(** ** The loops of the gateway, named

    [mexFunction] above is the code as written; these are its inner
    loop body, its cleanup loop body and its outer loop body, so that
    lemmas can speak about them ([mexFunction_checked] ties them back). *)

Definition scatter_step (num_inds_ptr : list Z) (logical_inds : handle) : nat → mex () :=
  λ j, v ← load num_inds_ptr j ; store_logical logical_inds v true.

Definition cleanup_step (out : handle) : nat → mex () :=
  λ j, mxGetCell out j ≫= mxDestroyArray.

Definition convert_step (in_indices : mxArray) (size : Z) (out : handle) : nat → mex () :=
  λ i,
    num_indices ← mxGetCell_arg in_indices i ≫= deref ;
    when (bool_decide (mxGetClassID num_indices ≠ mxUINT64_CLASS))
      (for_loop 0 i (cleanup_step out) ;;
       mxDestroyArray (Some out) ;;
       mexErrMsgIdAndTxt main_id "Indices must be uint64.") ;;
    let n_num_indices := mxGetNumberOfElements num_indices in
    let num_inds_ptr := mxGetData num_indices in
    logical_inds ← mxCreateLogicalMatrix size 1 ;
    for_loop 0 n_num_indices (scatter_step num_inds_ptr logical_inds) ;;
    mxSetCell out i logical_inds.

(** ** Vocabulary of the properties *)

(** In range for a buffer of [n] elements. *)
Definition in_range (n : Z) (inds : list Z) : Prop := Forall (λ v, 0 ≤ v < n) inds.

#[global] Instance in_range_dec n inds : Decision (in_range n inds).
Proof. unfold in_range. apply _. Defined.

(** After [i] rounds: [out] holds the handles of the first [i] masks and
    NULL in its other cells, each mask is the one of its index set, and
    nothing else is live. *)
Definition loop_inv (cells : list (option mxArray)) (size : Z) (out : handle)
    (i : nat) (s : state) : Prop :=
  next s = (out + 1 + i)%nat ∧
  plhs0 s = None ∧
  (∃ out_cells, heap s !! out = Some (ObjCell out_cells) ∧
     length out_cells = length cells ∧
     (∀ j, (j < i)%nat → out_cells !! j = Some (Some (out + 1 + j)%nat)) ∧
     (∀ j, (i ≤ j < length cells)%nat → out_cells !! j = Some None)) ∧
  (∀ j, (j < i)%nat → ∃ inds, cells !! j = Some (Some (mxUint64 inds)) ∧
     heap s !! (out + 1 + j)%nat = Some (ObjLogical (mask_of size inds))) ∧
  (∀ h, is_Some (heap s !! h) → (out ≤ h < out + 1 + i)%nat).

(** The cleanup loop, [j] cells destroyed so far: [out] still points at
    all [i] masks, of which only those from [j] on are still there. *)
Definition cleanup_inv (out : handle) (i : nat) (j : nat) (s : state) : Prop :=
  plhs0 s = None ∧
  (∃ out_cells, heap s !! out = Some (ObjCell out_cells) ∧
     ∀ j', (j' < i)%nat → out_cells !! j' = Some (Some (out + 1 + j')%nat)) ∧
  (∀ j', (j ≤ j' < i)%nat →
     ∃ data, heap s !! (out + 1 + j')%nat = Some (ObjLogical data)) ∧
  (∀ h, is_Some (heap s !! h) → h = out ∨ (out + 1 + j ≤ h < out + 1 + i)%nat).

(** The cells of a batch of uint64 index vectors. *)
Definition uint64_cells (indexBatch : list (list Z)) : list (option mxArray) :=
  (λ inds, Some (mxUint64 inds)) <$> indexBatch.

(** Every element of an index set written twice in a row. *)
Definition duplicate_each (inds : list Z) : list Z := inds ≫= λ v, [v; v].

(** The elements of [l] at the positions [pi], in the order of [pi]. *)
Definition permute {A} (pi : list nat) (l : list A) : list A :=
  omap (λ i, l !! i) pi.

(** Whether a double has no fractional part. *)
Definition is_integral (d : spec_float) : bool :=
  match d with
  | S754_zero _ => true
  | S754_finite _ m e => bool_decide (Z.shiftl (integral_part m e) (- e) = Z.pos m)
  | S754_infinity _ | S754_nan => false
  end.

(** The first value outside [0, size) in an index set, if there is one. *)
Definition first_out_of_range (size : Z) (inds : list Z) : option Z :=
  snd <$> list_find (λ v, ¬ (0 ≤ v < size)) inds.

(** Below zero ([-0.0] is not). *)
Definition is_negative (d : spec_float) : bool := SFltb d (S754_zero false).

(** The six places where the gateway raises an error. *)
Inductive failure :=
| WrongInputs | WrongOutputs | IndicesNotCell
| SizeNotDouble | SizeNotScalar | IndicesNotUint64.

Definition message (f : failure) : string :=
  match f with
  | WrongInputs => "Wrong number of inputs."
  | WrongOutputs => "Wrong number of outputs."
  | IndicesNotCell => "Indices must be cell array."
  | SizeNotDouble => "Size must be double."
  | SizeNotScalar => "Size must be scalar."
  | IndicesNotUint64 => "Indices must be uint64."
  end.

(** The condition under which each of them is reached. *)
Definition cause (f : failure) (nlhs nrhs : Z) (prhs : list mxArray) : Prop :=
  match f with
  | WrongInputs => nrhs ≠ 2
  | WrongOutputs => nrhs = 2 ∧ nlhs ≠ 1
  | IndicesNotCell =>
      nrhs = 2 ∧ nlhs = 1 ∧
      ∃ in_indices, prhs !! 0%nat = Some in_indices ∧
        mxGetClassID in_indices ≠ mxCELL_CLASS
  | SizeNotDouble =>
      nrhs = 2 ∧ nlhs = 1 ∧
      ∃ in_indices in_size,
        prhs !! 0%nat = Some in_indices ∧ prhs !! 1%nat = Some in_size ∧
        mxGetClassID in_indices = mxCELL_CLASS ∧
        mxGetClassID in_size ≠ mxDOUBLE_CLASS
  | SizeNotScalar =>
      nrhs = 2 ∧ nlhs = 1 ∧
      ∃ in_indices in_size,
        prhs !! 0%nat = Some in_indices ∧ prhs !! 1%nat = Some in_size ∧
        mxGetClassID in_indices = mxCELL_CLASS ∧
        mxGetClassID in_size = mxDOUBLE_CLASS ∧
        mxGetNumberOfElements in_size ≠ 1%nat
  | IndicesNotUint64 =>
      nrhs = 2 ∧ nlhs = 1 ∧
      ∃ cells d (k : nat) a,
        prhs !! 0%nat = Some (mxCell cells) ∧ prhs !! 1%nat = Some (mxDouble [d]) ∧
        cells !! k = Some (Some a) ∧ mxGetClassID a ≠ mxUINT64_CLASS
  end.



(** An index set the conversion loop gets through: a uint64 vector whose
    values all lie in [0, size). *)
Definition cell_ok (size : Z) (c : option mxArray) : bool :=
  match c with
  | Some (mxUint64 inds) => bool_decide (in_range size inds)
  | _ => false
  end.

(** How many elements of a mask are true. *)
Definition count_true (mask : list bool) : nat :=
  length (filter (λ b, b = true) mask).

(** * Proofs *)

(** ** Masks *)

Lemma set_true_length m v : length (set_true m v) = length m.
Proof. apply length_insert. Qed.

Lemma foldl_set_true_length inds : ∀ m, length (foldl set_true m inds) = length m.
Proof.
  induction inds as [|v inds IH]; intros m; simpl; [done|].
  by rewrite IH, set_true_length.
Qed.

Lemma foldl_set_true_lookup inds : ∀ (m : list bool) (p : nat),
  foldl set_true m inds !! p
  = (λ b, b || bool_decide (p ∈ positions inds)) <$> (m !! p).
Proof.
  induction inds as [|v inds IH]; intros m p; cbn [foldl].
  - destruct (m !! p) as [b|]; cbn [fmap option_fmap option_map]; [|done].
    f_equal. rewrite bool_decide_eq_false_2; [by rewrite orb_false_r|].
    apply not_elem_of_nil.
  - rewrite IH. unfold set_true at 1.
    assert (Hpos : positions (v :: inds) = Z.to_nat v :: positions inds) by done.
    rewrite Hpos. clear Hpos.
    destruct (decide (Z.to_nat v = p)) as [<-|Hne].
    + destruct (decide (Z.to_nat v < length m)%nat) as [Hlt|Hge].
      * rewrite list_lookup_insert_eq by done.
        destruct (lookup_lt_is_Some_2 m _ Hlt) as [b ->].
        cbn [fmap option_fmap option_map]. f_equal.
        rewrite (bool_decide_eq_true_2 (_ ∈ _ :: _)) by left.
        by rewrite orb_true_r.
      * rewrite list_insert_ge by lia.
        rewrite (lookup_ge_None_2 m) by lia. done.
    + rewrite list_lookup_insert_ne by done.
      destruct (m !! p) as [b|]; cbn [fmap option_fmap option_map]; [|done].
      f_equal. f_equal. apply bool_decide_ext.
      rewrite elem_of_cons. intuition congruence.
Qed.

Lemma mask_of_length size inds : length (mask_of size inds) = Z.to_nat size.
Proof.
  unfold mask_of. rewrite foldl_set_true_length, length_replicate. lia.
Qed.

Lemma mask_of_lookup size inds (p : nat) :
  mask_of size inds !! p
  = if decide (p < Z.to_nat size)%nat
    then Some (bool_decide (p ∈ positions inds)) else None.
Proof.
  unfold mask_of. rewrite foldl_set_true_lookup, Z.mul_1_r.
  case_decide as Hp.
  - by rewrite lookup_replicate_2.
  - rewrite (proj1 (lookup_replicate_None _ _ _)) by lia. done.
Qed.

(** Two index sets that name the same positions have the same mask. *)
Lemma mask_of_ext size inds1 inds2 :
  (∀ p, p ∈ positions inds1 ↔ p ∈ positions inds2) →
  mask_of size inds1 = mask_of size inds2.
Proof.
  intros H. apply list_eq; intros p. rewrite !mask_of_lookup.
  case_decide; [|done]. f_equal. by apply bool_decide_ext.
Qed.

Lemma elem_of_positions (p : Z) inds :
  0 ≤ p → Forall (λ v, 0 ≤ v) inds →
  Z.to_nat p ∈ positions inds ↔ p ∈ inds.
Proof.
  intros Hp Hall. unfold positions. rewrite list_elem_of_fmap. split.
  - intros (v & Hv & Hin). rewrite List.Forall_forall in Hall.
    assert (0 ≤ v) by (apply Hall; by apply list_elem_of_In).
    assert (p = v) as -> by lia. done.
  - intros Hin. eauto.
Qed.

(** ** Reasoning about gateway code *)

Lemma mex_bind_unfold {A B} (m : mex A) (f : A → mex B) s :
  (m ≫= f) s = match m s with
               | Done a s' => f a s'
               | Raised id msg s' => Raised id msg s'
               | Undefined u => Undefined u
               end.
Proof. reflexivity. Qed.

Lemma mex_bind_done {A B} (m : mex A) (f : A → mex B) s a s' :
  m s = Done a s' → (m ≫= f) s = f a s'.
Proof. intros H. by rewrite mex_bind_unfold, H. Qed.

Lemma mex_bind_raised {A B} (m : mex A) (f : A → mex B) s id msg s' :
  m s = Raised id msg s' → (m ≫= f) s = Raised id msg s'.
Proof. intros H. by rewrite mex_bind_unfold, H. Qed.

Lemma mex_bind_undefined {A B} (m : mex A) (f : A → mex B) s u :
  m s = Undefined u → (m ≫= f) s = Undefined u.
Proof. intros H. by rewrite mex_bind_unfold, H. Qed.

Lemma state_eta s : mkState (heap s) (next s) (plhs0 s) = s.
Proof. by destruct s. Qed.

(** A loop whose body keeps an invariant runs to its end and keeps it. *)
Lemma for_steps_inv (I : nat → state → Prop) body : ∀ fuel i s,
  I i s →
  (∀ k s0, (i ≤ k < i + fuel)%nat → I k s0 →
           ∃ s1, body k s0 = Done () s1 ∧ I (S k) s1) →
  ∃ s', for_steps fuel i body s = Done () s' ∧ I (i + fuel)%nat s'.
Proof.
  induction fuel as [|fuel IH]; intros i s Hi Hbody; simpl.
  - exists s. by rewrite Nat.add_0_r.
  - destruct (Hbody i s) as (s1 & Hs1 & HI1); [lia|done|].
    destruct (IH (S i) s1 HI1) as (s' & Hs' & HI').
    { intros k s0 Hk. apply Hbody. lia. }
    exists s'. split.
    + by rewrite (mex_bind_done _ _ _ _ _ Hs1).
    + by replace (i + S fuel)%nat with (S i + fuel)%nat by lia.
Qed.

(** A loop whose body keeps an invariant up to step [k] and stops there
    stops with what the body stopped with. *)
Lemma for_steps_stop (I : nat → state → Prop) (Q : outcome () → Prop) body k :
  ∀ fuel i s,
  (i ≤ k < i + fuel)%nat →
  I i s →
  (∀ j s0, (i ≤ j < k)%nat → I j s0 →
           ∃ s1, body j s0 = Done () s1 ∧ I (S j) s1) →
  (∀ s0, I k s0 → Q (body k s0) ∧ ∀ s1, body k s0 ≠ Done () s1) →
  Q (for_steps fuel i body s).
Proof.
  induction fuel as [|fuel IH]; intros i s Hk Hi Hbody Hstop; [lia|].
  simpl. destruct (decide (i = k)) as [->|Hne].
  - destruct (Hstop s Hi) as [HQ Hnd].
    rewrite mex_bind_unfold. destruct (body k s) as [[] s1| |]; [|done..].
    by destruct (Hnd s1).
  - destruct (Hbody i s) as (s1 & Hs1 & HI1); [lia|done|].
    rewrite (mex_bind_done _ _ _ _ _ Hs1).
    apply IH; [lia|done| |done].
    intros j s0 Hj. apply Hbody. lia.
Qed.

(** ** The gateway after its checks *)

(** The gateway once its two arguments have passed the checks on count,
    class and element count. *)
Lemma mexFunction_checked cells d :
  mexFunction 1 2 [mxCell cells; mxDouble [d]]
  = (size ← to_size_t d ;
     out ← mxCreateCellMatrix (length cells) 1 ;
     for_loop 0 (length cells) (convert_step (mxCell cells) size out) ;;
     set_plhs0 out).
Proof. reflexivity. Qed.

(** ** The scatter loop *)

Lemma store_logical_in_range h v b s data :
  heap s !! h = Some (ObjLogical data) →
  0 ≤ v < Z.of_nat (length data) →
  store_logical h v b s
  = Done () (mkState (<[h := ObjLogical (<[Z.to_nat v := b]> data)]> (heap s))
                     (next s) (plhs0 s)).
Proof.
  intros Hh Hv. unfold store_logical. rewrite Hh. by rewrite decide_True.
Qed.

Lemma store_logical_out_of_range h v b s data :
  heap s !! h = Some (ObjLogical data) →
  ¬ (0 ≤ v < Z.of_nat (length data)) →
  store_logical h v b s = Undefined (OutOfBoundsWrite h v).
Proof.
  intros Hh Hv. unfold store_logical. rewrite Hh. by rewrite decide_False.
Qed.

(** The scatter loop on in-range indices: the buffer behind the handle
    ends as the fold of [set_true] over the indices visited. *)
Lemma scatter_loop h ptr : ∀ fuel j s data,
  heap s !! h = Some (ObjLogical data) →
  (j + fuel ≤ length ptr)%nat →
  in_range (Z.of_nat (length data)) ptr →
  for_steps fuel j (scatter_step ptr h) s
  = Done () (mkState
      (<[h := ObjLogical (foldl set_true data (take fuel (drop j ptr)))]> (heap s))
      (next s) (plhs0 s)).
Proof.
  induction fuel as [|fuel IH]; intros j s data Hh Hlen Hall; cbn [for_steps].
  - rewrite take_0. cbn [foldl]. rewrite insert_id by done.
    by rewrite state_eta.
  - destruct (lookup_lt_is_Some_2 ptr j) as [v Hv]; [lia|].
    assert (Hv' : 0 ≤ v < Z.of_nat (length data)).
    { unfold in_range in Hall. rewrite Forall_lookup in Hall. by eapply Hall. }
    rewrite (drop_S _ _ _ Hv). cbn [take foldl].
    erewrite mex_bind_done; cycle 1.
    { unfold scatter_step, load. rewrite Hv.
      erewrite mex_bind_done by reflexivity.
      by apply store_logical_in_range. }
    erewrite IH; cycle 1.
    + cbn [heap]. apply lookup_insert_eq.
    + lia.
    + by rewrite length_insert.
    + cbn [heap next plhs0]. by rewrite insert_insert_eq.
Qed.

Lemma for_loop_0 n body : for_loop 0 n body = for_steps n 0%nat body.
Proof. unfold for_loop. by rewrite Nat.sub_0_r. Qed.

Lemma in_range_buffer size inds :
  in_range size inds →
  in_range (Z.of_nat (length (replicate (Z.to_nat (size * 1)) false))) inds.
Proof.
  unfold in_range. intros H. eapply Forall_impl; [exact H|].
  intros v Hv. cbv beta in *. rewrite length_replicate. lia.
Qed.

(** ** Argument cells *)

Lemma get_cell_arg cells i a s :
  cells !! i = Some (Some a) →
  (mxGetCell_arg (mxCell cells) i ≫= deref) s = Done a s.
Proof.
  intros H. rewrite mex_bind_unfold. unfold mxGetCell_arg. by rewrite H.
Qed.

Lemma get_cell_arg_null cells i s :
  cells !! i = Some None →
  (mxGetCell_arg (mxCell cells) i ≫= deref) s = Undefined NullPointer.
Proof.
  intros H. rewrite mex_bind_unfold. unfold mxGetCell_arg. by rewrite H.
Qed.

(** ** Destroying arrays *)

Lemma destroy_logical fuel h s data :
  heap s !! h = Some (ObjLogical data) → destroy fuel h s = release h s.
Proof. intros H. destruct fuel; cbn [destroy]; by rewrite H. Qed.

Lemma destroy_dead fuel h s :
  heap s !! h = None → destroy fuel h s = Undefined (DoubleFree h).
Proof. intros H. destruct fuel; cbn [destroy]; by rewrite H. Qed.

Lemma live_size (s : state) h o : heap s !! h = Some o → size (heap s) ≠ 0%nat.
Proof.
  intros H Hsz. apply map_size_empty_iff in Hsz. by rewrite Hsz, lookup_empty in H.
Qed.

Lemma mxDestroyArray_logical h s data :
  heap s !! h = Some (ObjLogical data) →
  mxDestroyArray (Some h) s
  = Done () (mkState (delete h (heap s)) (next s) (plhs0 s)).
Proof. intros H. unfold mxDestroyArray. by rewrite (destroy_logical _ _ _ _ H). Qed.

(** A cell matrix whose cells are all NULL goes alone. *)
Lemma mxDestroyArray_null_cells h s cells :
  heap s !! h = Some (ObjCell cells) →
  Forall (λ c, c = None) cells →
  mxDestroyArray (Some h) s
  = Done () (mkState (delete h (heap s)) (next s) (plhs0 s)).
Proof.
  intros H Hnull. unfold mxDestroyArray.
  destruct (size (heap s)) as [|fuel] eqn:Hsz; [by destruct (live_size _ _ _ H)|].
  cbn [destroy]. rewrite H. clear H Hsz.
  induction Hnull as [|c cells -> _ IH]; [reflexivity|]. exact IH.
Qed.

(** A cell matrix whose first cell points at an array that is gone: the
    array is destroyed a second time. *)
Lemma mxDestroyArray_dead_cell h s hc cells :
  heap s !! h = Some (ObjCell (Some hc :: cells)) →
  heap s !! hc = None →
  mxDestroyArray (Some h) s = Undefined (DoubleFree hc).
Proof.
  intros H Hdead. unfold mxDestroyArray.
  destruct (size (heap s)) as [|fuel] eqn:Hsz; [by destruct (live_size _ _ _ H)|].
  cbn [destroy]. rewrite H. cbn [foldr].
  apply mex_bind_undefined. by apply destroy_dead.
Qed.

(** ** The conversion loop *)

Section convert_loop.
Variables (cells : list (option mxArray)) (size : Z) (out : nat).

(** One round on an in-range uint64 index set. *)
Lemma convert_step_ok i s inds :
  loop_inv cells size out i s →
  cells !! i = Some (Some (mxUint64 inds)) →
  in_range size inds →
  ∃ s', convert_step (mxCell cells) size out i s = Done () s' ∧ loop_inv cells size out (S i) s'.
Proof.
  intros (Hnext & Hplhs & (oc & Hout & Hlen & Hoc & Hnull) & Hmasks & Hdom) Hi Hr.
  assert (Hilt : (i < length cells)%nat) by (by eapply lookup_lt_Some).
  set (hn := next s).
  set (s1 := mkState (<[hn := ObjLogical (replicate (Z.to_nat (size * 1)) false)]> (heap s))
                     (S hn) (plhs0 s)).
  set (s2 := mkState (<[hn := ObjLogical (mask_of size inds)]> (heap s1))
                     (next s1) (plhs0 s1)).
  set (s3 := mkState (<[out := ObjCell (<[i := Some hn]> oc)]> (heap s2))
                     (next s2) (plhs0 s2)).
  assert (Hne : out ≠ hn) by (unfold hn; lia).
  exists s3. split.
  - unfold convert_step.
    rewrite (mex_bind_done _ _ _ _ _ (get_cell_arg _ _ _ _ Hi)).
    erewrite mex_bind_done; cycle 1.
    { cbn [mxGetClassID]. rewrite bool_decide_eq_false_2 by (intros H; by apply H).
      reflexivity. }
    erewrite (mex_bind_done _ _ _ hn s1) by reflexivity.
    erewrite (mex_bind_done _ _ _ () s2); cycle 1.
    { rewrite for_loop_0. cbn [mxGetNumberOfElements mxGetData].
      erewrite scatter_loop; cycle 1.
      - cbn [heap s1]. apply lookup_insert_eq.
      - lia.
      - by apply in_range_buffer.
      - rewrite drop_0, firstn_all. reflexivity. }
    unfold mxSetCell. cbn [heap s2 s1].
    rewrite lookup_insert_ne by done. rewrite lookup_insert_ne by done.
    rewrite Hout. rewrite decide_True by lia. reflexivity.
  - unfold loop_inv. cbn [heap next plhs0 s3 s2 s1]. split_and!.
    + unfold hn. lia.
    + done.
    + exists (<[i := Some hn]> oc). split_and!.
      * apply lookup_insert_eq.
      * by rewrite length_insert.
      * intros j Hj. destruct (decide (j = i)) as [->|Hji].
        -- rewrite list_lookup_insert_eq by lia. unfold hn. by rewrite Hnext.
        -- rewrite list_lookup_insert_ne by done. apply Hoc. lia.
      * intros j Hj. rewrite list_lookup_insert_ne by lia. apply Hnull. lia.
    + intros j Hj. destruct (decide (j = i)) as [->|Hji].
      * exists inds. split; [done|].
        rewrite lookup_insert_ne by lia. rewrite <- Hnext.
        apply lookup_insert_eq.
      * destruct (Hmasks j) as (inds' & Hc & Hm); [lia|].
        exists inds'. split; [done|].
        rewrite !lookup_insert_ne by (unfold hn; lia). done.
    + intros h Hh. destruct (decide (h = out)) as [->|Hho]; [lia|].
      rewrite lookup_insert_ne in Hh by done.
      destruct (decide (h = hn)) as [->|Hhn]; [unfold hn; lia|].
      rewrite !lookup_insert_ne in Hh by done.
      specialize (Hdom h Hh). lia.
Qed.

(** One round on a cell that was never populated. *)
Lemma convert_step_null i s :
  cells !! i = Some None →
  convert_step (mxCell cells) size out i s = Undefined NullPointer.
Proof.
  intros Hi. unfold convert_step.
  by rewrite (mex_bind_undefined _ _ _ _ (get_cell_arg_null _ _ _ Hi)).
Qed.

Lemma cleanup_step_ok i j s :
  (j < i)%nat → cleanup_inv out i j s →
  ∃ s', cleanup_step out j s = Done () s' ∧ cleanup_inv out i (S j) s'.
Proof.
  intros Hj (Hplhs & (oc & Hout & Hoc) & Hlive & Hdom).
  destruct (Hlive j) as [data Hdata]; [lia|].
  exists (mkState (delete (out + 1 + j)%nat (heap s)) (next s) (plhs0 s)). split.
  - unfold cleanup_step. erewrite mex_bind_done; cycle 1.
    { unfold mxGetCell. rewrite Hout, (Hoc j Hj). reflexivity. }
    by apply (mxDestroyArray_logical _ _ data).
  - unfold cleanup_inv. cbn [heap plhs0]. split_and!; [done| | |].
    + exists oc. split; [|done]. rewrite lookup_delete_ne by lia. done.
    + intros j' Hj'. destruct (Hlive j') as [data' Hdata']; [lia|].
      exists data'. rewrite lookup_delete_ne by lia. done.
    + intros h Hh. destruct (decide (h = (out + 1 + j)%nat)) as [->|Hne].
      * rewrite lookup_delete_eq in Hh. by destruct Hh.
      * rewrite lookup_delete_ne in Hh by done.
        destruct (Hdom h Hh); [by left|right; lia].
Qed.

Lemma cleanup_loop i s :
  loop_inv cells size out i s →
  ∃ s', for_loop 0 i (cleanup_step out) s = Done () s' ∧ cleanup_inv out i i s'.
Proof.
  intros (Hnext & Hplhs & (oc & Hout & Hlen & Hoc & Hnull) & Hmasks & Hdom).
  rewrite for_loop_0.
  apply (for_steps_inv (cleanup_inv out i) (cleanup_step out) i 0%nat s).
  - split_and!; [done|by exists oc| |].
    + intros j' Hj'. destruct (Hmasks j') as (inds & _ & Hm); [lia|]. by eexists.
    + intros h Hh. specialize (Hdom h Hh). lia.
  - intros k s0 Hk. apply cleanup_step_ok. lia.
Qed.

(** The first index set is of another class: the cell matrix, which
    holds nothing yet, is destroyed, and the call is left with the uint64
    message. *)
Lemma convert_step_bad_class_first s a :
  loop_inv cells size out 0 s →
  cells !! 0%nat = Some (Some a) →
  mxGetClassID a ≠ mxUINT64_CLASS →
  ∃ s', convert_step (mxCell cells) size out 0 s
        = Raised main_id "Indices must be uint64." s'
        ∧ heap s' = ∅ ∧ plhs0 s' = None.
Proof.
  intros (Hnext & Hplhs & (oc & Hout & Hlen & Hoc & Hnull) & Hmasks & Hdom) Hi Hcls.
  exists (mkState (delete out (heap s)) (next s) (plhs0 s)). split_and!.
  - unfold convert_step.
    rewrite (mex_bind_done _ _ _ _ _ (get_cell_arg _ _ _ _ Hi)).
    rewrite bool_decide_eq_true_2 by done. cbn [when].
    apply mex_bind_raised.
    erewrite mex_bind_done by reflexivity.
    erewrite mex_bind_done; [reflexivity|].
    apply (mxDestroyArray_null_cells _ _ oc); [done|].
    apply Forall_lookup. intros j c Hc.
    pose proof (lookup_lt_Some _ _ _ Hc).
    rewrite Hnull in Hc by lia. by injection Hc as <-.
  - cbn [heap]. apply map_empty. intros h.
    destruct (decide (h = out)) as [->|Hne]; [apply lookup_delete_eq|].
    rewrite lookup_delete_ne by done.
    destruct (heap s !! h) eqn:Hh; [|done].
    destruct (Hdom h) as [? ?]; [by eexists|lia].
  - done.
Qed.

(** A later index set is of another class: the cleanup loop destroys the
    masks built so far, and destroying the cell matrix, whose cells still
    point at them, destroys the first of them again.  The error call
    comes after that. *)
Lemma convert_step_bad_class_later i s a :
  (0 < i)%nat →
  loop_inv cells size out i s →
  cells !! i = Some (Some a) →
  mxGetClassID a ≠ mxUINT64_CLASS →
  convert_step (mxCell cells) size out i s = Undefined (DoubleFree (out + 1)%nat).
Proof.
  intros Hpos Hinv Hi Hcls.
  destruct (cleanup_loop _ _ Hinv) as (s1 & Hs1 & Hplhs1 & (oc1 & Hout1 & Hoc1) & _ & Hdom1).
  unfold convert_step.
  rewrite (mex_bind_done _ _ _ _ _ (get_cell_arg _ _ _ _ Hi)).
  rewrite bool_decide_eq_true_2 by done. cbn [when].
  apply mex_bind_undefined.
  rewrite (mex_bind_done _ _ _ _ _ Hs1).
  apply mex_bind_undefined.
  pose proof (Hoc1 0%nat Hpos) as H0.
  destruct oc1 as [|c oc1]; [done|]. cbn in H0.
  assert (c = Some (out + 1)%nat) as -> by (injection H0 as ->; f_equal; lia).
  apply (mxDestroyArray_dead_cell _ _ _ oc1); [done|].
  destruct (heap s1 !! (out + 1)%nat) eqn:Hh; [|done].
  destruct (Hdom1 (out + 1)%nat) as [?|?]; [by eexists|lia..].
Qed.

End convert_loop.

(** ** Whole calls *)

Lemma loop_inv_start cells size s :
  heap s = ∅ → plhs0 s = None →
  ∃ s0, mxCreateCellMatrix (length cells) 1 s = Done (next s) s0
        ∧ loop_inv cells size (next s) 0 s0.
Proof.
  intros Hheap Hplhs. eexists. split; [reflexivity|].
  unfold loop_inv. cbn [heap next plhs0]. split_and!.
  - lia.
  - done.
  - eexists. split_and!; [apply lookup_insert_eq| |intros j Hj; lia|].
    + rewrite length_replicate. lia.
    + intros j Hj. apply lookup_replicate_2. lia.
  - intros j Hj. lia.
  - intros h Hh. destruct (decide (h = next s)) as [->|Hne]; [lia|].
    rewrite lookup_insert_ne in Hh by done.
    rewrite Hheap, lookup_empty in Hh. by destruct Hh.
Qed.

Lemma output_at_end cells size out s :
  loop_inv cells size out (length cells) s →
  ∃ masks,
    output (mkState (heap s) (next s) (Some out)) = Some masks ∧
    length masks = length cells ∧
    ∀ j inds, cells !! j = Some (Some (mxUint64 inds)) →
              masks !! j = Some (mask_of size inds).
Proof.
  intros (Hnext & Hplhs & (oc & Hout & Hlen & Hoc & Hnull) & Hmasks & Hdom).
  set (s' := mkState (heap s) (next s) (Some out)).
  assert (Hread : ∀ j, (j < length cells)%nat →
            ∃ inds, cells !! j = Some (Some (mxUint64 inds)) ∧
                    oc !! j = Some (Some (out + 1 + j)%nat) ∧
                    read_mask s' (Some (out + 1 + j)%nat) = Some (mask_of size inds)).
  { intros j Hj. destruct (Hmasks j Hj) as (inds & Hc & Hm).
    exists inds. split_and!; [done|by apply Hoc|].
    unfold read_mask. cbn. by rewrite Hm. }
  assert (Hall : ∀ j, (j < length oc)%nat → is_Some (oc !! j ≫= read_mask s')).
  { intros j Hj. destruct (Hread j) as (inds & _ & -> & Hr); [lia|].
    change (is_Some (read_mask s' (Some (out + 1 + j)%nat))).
    rewrite Hr. by eexists. }
  assert (Hm : is_Some (mapM (read_mask s') oc)).
  { apply mapM_is_Some. apply Forall_lookup. intros j c Hc.
    destruct (Hall j) as [m Hm]; [by eapply lookup_lt_Some|].
    rewrite Hc in Hm. by eexists. }
  destruct Hm as [masks Hmasks'].
  exists masks. unfold output. cbn. rewrite Hout.
  split_and!; [done| |].
  - apply length_mapM in Hmasks'. lia.
  - intros j inds Hc.
    destruct (Hread j) as (inds' & Hc' & Hocj & Hr); [by eapply lookup_lt_Some|].
    assert (inds' = inds) as -> by congruence.
    rewrite mapM_Some in Hmasks'.
    destruct (Forall2_lookup_l _ _ _ _ _ Hmasks' Hocj) as (m & Hm1 & Hm2).
    rewrite Hm1. congruence.
Qed.

(** A call on a batch of in-range uint64 index vectors returns, and what
    it returns is the list of their masks. *)
Lemma call_valid (indexBatch : list (list Z)) (d : spec_float) (size : Z) :
  double_to_size_t d = Some size →
  Forall (in_range size) indexBatch →
  ∃ s, call 1 2 [mxCell (uint64_cells indexBatch); mxDouble [d]] = Done () s
       ∧ output s = Some (mask_of size <$> indexBatch).
Proof.
  intros Hsize Hvalid. unfold call. rewrite mexFunction_checked.
  set (cells := uint64_cells indexBatch).
  erewrite mex_bind_done; cycle 1.
  { unfold to_size_t. rewrite Hsize. reflexivity. }
  destruct (loop_inv_start cells size init_state) as (s0 & Hs0 & Hinv0); [done..|].
  rewrite (mex_bind_done _ _ _ _ _ Hs0). cbn [next init_state] in *.
  destruct (for_steps_inv (loop_inv cells size 0%nat)
              (convert_step (mxCell cells) size 0%nat) (length cells) 0%nat s0 Hinv0)
    as (s1 & Hs1 & Hinv1).
  { intros k s' Hk Hinv.
    destruct (lookup_lt_is_Some_2 indexBatch k) as [inds Hinds].
    { unfold cells, uint64_cells in Hk. rewrite length_fmap in Hk. lia. }
    apply (convert_step_ok _ _ _ _ _ inds); [done| |].
    - unfold cells, uint64_cells. by rewrite list_lookup_fmap, Hinds.
    - rewrite Forall_lookup in Hvalid. by eapply Hvalid. }
  rewrite for_loop_0, (mex_bind_done _ _ _ _ _ Hs1).
  eexists. split; [reflexivity|].
  destruct (output_at_end _ _ _ _ Hinv1) as (masks & Hout & Hlen & Hmasks).
  rewrite Hout. f_equal. apply list_eq. intros j.
  rewrite list_lookup_fmap.
  destruct (indexBatch !! j) as [inds|] eqn:Hj; cbn.
  - apply Hmasks. unfold cells, uint64_cells. by rewrite list_lookup_fmap, Hj.
  - apply lookup_ge_None. apply lookup_ge_None in Hj.
    unfold cells, uint64_cells in Hlen. rewrite length_fmap in Hlen. lia.
Qed.

Lemma convert_valid (indexBatch : list (list Z)) (d : spec_float) (size : Z) :
  double_to_size_t d = Some size →
  Forall (in_range size) indexBatch →
  convert (uint64_cells indexBatch) d = Some (mask_of size <$> indexBatch).
Proof.
  intros Hsize Hvalid.
  destruct (call_valid _ _ _ Hsize Hvalid) as (s & Hs & Hout).
  unfold convert, result. by rewrite Hs.
Qed.

Lemma in_range_nonneg size inds : in_range size inds → Forall (λ v, 0 ≤ v) inds.
Proof.
  unfold in_range. intros H. eapply Forall_impl; [exact H|].
  intros v Hv. cbv beta in Hv. lia.
Qed.

Lemma double_to_size_t_range d size :
  double_to_size_t d = Some size → 0 ≤ size < 2 ^ 64.
Proof.
  destruct d as [s| | |s m e]; cbn [double_to_size_t]; try congruence.
  - intros [= <-]. lia.
  - destruct s.
    + destruct (integral_part m e =? 0); [|congruence]. intros [= <-]. lia.
    + destruct (Z.ltb_spec (integral_part m e) (2 ^ 64)); [|congruence].
      intros [= <-]. split; [|done].
      unfold integral_part. apply Z.shiftl_nonneg. lia.
Qed.

(** ** Claims about valid calls *)

(** C1. For a batch of uint64 index vectors whose values all lie in
    [0, size), the call returns one mask per index set, and in mask [i]
    position [p] holds true exactly when [p] occurs in index set [i], and
    false otherwise. *)
Theorem mask_membership (indexBatch : list (list Z)) (length : spec_float) (size : Z) :
  double_to_size_t length = Some size →
  Forall (in_range size) indexBatch →
  ∃ result,
    convert (uint64_cells indexBatch) length = Some result ∧
    ∀ i inds, indexBatch !! i = Some inds →
      ∃ mask, result !! i = Some mask ∧
        ∀ p, 0 ≤ p < size →
          (mask !! Z.to_nat p = Some true ↔ p ∈ inds) ∧
          (mask !! Z.to_nat p = Some false ↔ p ∉ inds).
Proof.
  intros Hsize Hvalid. exists (mask_of size <$> indexBatch).
  split; [by apply convert_valid|].
  intros i inds Hi. exists (mask_of size inds).
  split; [by rewrite list_lookup_fmap, Hi|].
  intros p Hp. rewrite mask_of_lookup, decide_True by lia.
  assert (Hnn : Forall (λ v, 0 ≤ v) inds).
  { apply (in_range_nonneg size). rewrite Forall_lookup in Hvalid. by eapply Hvalid. }
  pose proof (elem_of_positions p inds (proj1 Hp) Hnn) as Hmem.
  destruct (decide (p ∈ inds)) as [Hin|Hnin].
  - rewrite bool_decide_eq_true_2 by (by apply Hmem).
    split; split; first [done | naive_solver].
  - rewrite bool_decide_eq_false_2 by (by rewrite Hmem).
    split; split; first [done | naive_solver].
Qed.

Lemma mask_membership_witness :
  ∃ result,
    convert (uint64_cells [[0; 2]; [1]]) (double_of_Z 3) = Some result ∧
    ∀ i inds, [[0; 2]; [1]] !! i = Some inds →
      ∃ mask, result !! i = Some mask ∧
        ∀ p, 0 ≤ p < 3 →
          (mask !! Z.to_nat p = Some true ↔ p ∈ inds) ∧
          (mask !! Z.to_nat p = Some false ↔ p ∉ inds).
Proof.
  apply (mask_membership [[0; 2]; [1]] (double_of_Z 3) 3).
  - reflexivity.
  - repeat constructor; lia.
Defined.

(** C3. On valid input the result has as many masks as the batch has
    index sets, and every mask has [size] elements. *)
Theorem result_shape (indexBatch : list (list Z)) (length : spec_float) (size : Z) :
  double_to_size_t length = Some size →
  Forall (in_range size) indexBatch →
  ∃ result,
    convert (uint64_cells indexBatch) length = Some result ∧
    List.length result = List.length indexBatch ∧
    Forall (λ mask, Z.of_nat (List.length mask) = size) result.
Proof.
  intros Hsize Hvalid. exists (mask_of size <$> indexBatch).
  split_and!; [by apply convert_valid|by rewrite length_fmap|].
  apply Forall_fmap, Forall_forall. intros inds _. cbn.
  rewrite mask_of_length.
  pose proof (double_to_size_t_range _ _ Hsize). lia.
Qed.

Lemma result_shape_witness :
  ∃ result,
    convert (uint64_cells [[0; 2]; [1]]) (double_of_Z 3) = Some result ∧
    List.length result = List.length [[0; 2]; [1]] ∧
    Forall (λ mask, Z.of_nat (List.length mask) = 3) result.
Proof.
  apply (result_shape [[0; 2]; [1]] (double_of_Z 3) 3).
  - reflexivity.
  - repeat constructor; lia.
Defined.

Lemma positions_duplicate_each inds p :
  p ∈ positions (duplicate_each inds) ↔ p ∈ positions inds.
Proof.
  unfold positions, duplicate_each. rewrite !list_elem_of_fmap.
  split.
  - intros (v & -> & Hv). apply list_elem_of_bind in Hv as (w & Hw & Hin).
    exists w. split; [|done].
    apply elem_of_cons in Hw as [->|Hw]; [done|].
    apply elem_of_cons in Hw as [->|Hw]; [done|].
    by apply not_elem_of_nil in Hw.
  - intros (v & -> & Hv). exists v. split; [done|].
    apply list_elem_of_bind. exists v. split; [left|done].
Qed.

Lemma in_range_duplicate_each size inds :
  in_range size inds → in_range size (duplicate_each inds).
Proof.
  unfold in_range. rewrite !Forall_forall. intros H v Hv.
  apply list_elem_of_bind in Hv as (w & Hw & Hin).
  apply elem_of_cons in Hw as [->|Hw]; [by apply H|].
  apply elem_of_cons in Hw as [->|Hw]; [by apply H|].
  by apply not_elem_of_nil in Hw.
Qed.

Lemma mask_of_duplicate_each size inds :
  mask_of size (duplicate_each inds) = mask_of size inds.
Proof. apply mask_of_ext. intros p. apply positions_duplicate_each. Qed.

Lemma mask_of_Permutation size inds1 inds2 :
  inds1 ≡ₚ inds2 → mask_of size inds1 = mask_of size inds2.
Proof.
  intros Hp. apply mask_of_ext. intros p. unfold positions. by rewrite Hp.
Qed.

Lemma permute_fmap {A B} (f : A → B) pi (l : list A) :
  permute pi (f <$> l) = f <$> permute pi l.
Proof.
  unfold permute. induction pi as [|i pi IH]; [done|].
  cbn [omap list_omap]. rewrite list_lookup_fmap.
  destruct (l !! i); cbn; by rewrite IH.
Qed.

Lemma Forall_permute {A} (P : A → Prop) pi (l : list A) :
  Forall P l → Forall P (permute pi l).
Proof.
  rewrite !Forall_forall. intros H x Hx.
  apply list_elem_of_omap in Hx as (i & _ & Hi).
  apply H. by eapply list_elem_of_lookup_2.
Qed.

(** When [pi] lists every position of [l] once, [permute pi l] is a
    rearrangement of [l]. *)
Lemma permute_Permutation {A} pi (l : list A) :
  pi ≡ₚ seq 0 (length l) → permute pi l ≡ₚ l.
Proof.
  intros Hpi. unfold permute. rewrite Hpi. clear pi Hpi.
  assert (H : ∀ k, omap (λ i, l !! i) (seq k (length l - k)) = drop k l).
  { intros k. remember (length l - k)%nat as n eqn:Hn.
    revert k Hn. induction n as [|n IH]; intros k Hn.
    - cbn. rewrite drop_ge by lia. done.
    - cbn [seq omap list_omap].
      destruct (lookup_lt_is_Some_2 l k) as [x Hx]; [lia|].
      rewrite Hx, (drop_S _ _ _ Hx). f_equal. apply IH. lia. }
  specialize (H 0%nat). rewrite Nat.sub_0_r, drop_0 in H. by rewrite H.
Qed.

(** C7. Writing every element of an index set twice changes nothing:
    a batch and the batch in which some or all index sets have each
    element duplicated convert to the same masks. *)
Theorem duplicates_idempotent
    (indexBatch indexBatch' : list (list Z)) (length : spec_float) (size : Z) :
  double_to_size_t length = Some size →
  Forall (in_range size) indexBatch →
  Forall2 (λ s s', s' = s ∨ s' = duplicate_each s) indexBatch indexBatch' →
  is_Some (convert (uint64_cells indexBatch) length) ∧
  convert (uint64_cells indexBatch') length = convert (uint64_cells indexBatch) length.
Proof.
  intros Hsize Hvalid Hdup.
  assert (Hvalid' : Forall (in_range size) indexBatch').
  { apply Forall_lookup. intros i s' Hs'.
    destruct (Forall2_lookup_r _ _ _ _ _ Hdup Hs') as (s & Hs & Hrel).
    rewrite Forall_lookup in Hvalid. specialize (Hvalid i s Hs).
    destruct Hrel as [->| ->]; [done|by apply in_range_duplicate_each]. }
  rewrite !(convert_valid _ _ size) by done.
  split; [by eexists|]. f_equal.
  apply list_eq. intros i. rewrite !list_lookup_fmap.
  destruct (indexBatch' !! i) as [s'|] eqn:Hs'.
  - destruct (Forall2_lookup_r _ _ _ _ _ Hdup Hs') as (s & -> & Hrel). cbn.
    f_equal. destruct Hrel as [->| ->]; [done|apply mask_of_duplicate_each].
  - apply lookup_ge_None in Hs'. rewrite <- (Forall2_length _ _ _ Hdup) in Hs'.
    apply lookup_ge_None in Hs'. by rewrite Hs'.
Qed.

Lemma duplicates_idempotent_witness :
  is_Some (convert (uint64_cells [[0; 2]; [1]]) (double_of_Z 3)) ∧
  convert (uint64_cells [[0; 0; 2; 2]; [1]]) (double_of_Z 3)
  = convert (uint64_cells [[0; 2]; [1]]) (double_of_Z 3).
Proof.
  apply (duplicates_idempotent [[0; 2]; [1]] [[0; 0; 2; 2]; [1]] (double_of_Z 3) 3).
  - reflexivity.
  - repeat constructor; lia.
  - constructor; [by right|]. constructor; [by left|]. constructor.
Defined.

(** C8. Rearranging the index sets of a valid batch rearranges the masks
    in the same way, and rearranging the elements inside index sets leaves
    every mask as it was. *)
Theorem order_preservation (indexBatch : list (list Z)) (length : spec_float) (size : Z) :
  double_to_size_t length = Some size →
  Forall (in_range size) indexBatch →
  is_Some (convert (uint64_cells indexBatch) length) ∧
  (∀ pi : list nat,
     convert (uint64_cells (permute pi indexBatch)) length
     = permute pi <$> convert (uint64_cells indexBatch) length) ∧
  (∀ indexBatch' : list (list Z),
     Forall2 (≡ₚ) indexBatch indexBatch' →
     convert (uint64_cells indexBatch') length
     = convert (uint64_cells indexBatch) length).
Proof.
  intros Hsize Hvalid. rewrite (convert_valid _ _ size) by done.
  split_and!; [by eexists| |].
  - intros pi. rewrite (convert_valid _ _ size); [|done|by apply Forall_permute].
    cbn. by rewrite permute_fmap.
  - intros indexBatch' Hperm.
    rewrite (convert_valid _ _ size); [|done|].
    + f_equal. symmetry. apply list_eq. intros i. rewrite !list_lookup_fmap.
      destruct (indexBatch !! i) as [s|] eqn:Hs.
      * destruct (Forall2_lookup_l _ _ _ _ _ Hperm Hs) as (s' & -> & Hrel). cbn.
        f_equal. by apply mask_of_Permutation.
      * apply lookup_ge_None in Hs. rewrite (Forall2_length _ _ _ Hperm) in Hs.
        apply lookup_ge_None in Hs. by rewrite Hs.
    + apply Forall_lookup. intros i s' Hs'.
      destruct (Forall2_lookup_r _ _ _ _ _ Hperm Hs') as (s & Hs & Hrel).
      rewrite Forall_lookup in Hvalid. specialize (Hvalid i s Hs).
      unfold in_range in *. by rewrite <- Hrel.
Qed.

Lemma order_preservation_witness :
  is_Some (convert (uint64_cells [[0; 2]; [1]]) (double_of_Z 3)) ∧
  (∀ pi : list nat,
     convert (uint64_cells (permute pi [[0; 2]; [1]])) (double_of_Z 3)
     = permute pi <$> convert (uint64_cells [[0; 2]; [1]]) (double_of_Z 3)) ∧
  (∀ indexBatch' : list (list Z),
     Forall2 (≡ₚ) [[0; 2]; [1]] indexBatch' →
     convert (uint64_cells indexBatch') (double_of_Z 3)
     = convert (uint64_cells [[0; 2]; [1]]) (double_of_Z 3)).
Proof.
  apply (order_preservation [[0; 2]; [1]] (double_of_Z 3) 3).
  - reflexivity.
  - repeat constructor; lia.
Defined.

(** ** The checks before the loop *)

Lemma when_false body s : when false body s = Done () s.
Proof. reflexivity. Qed.

Lemma size_not_scalar cells pr s :
  length pr ≠ 1%nat →
  mexFunction 1 2 [mxCell cells; mxDouble pr] s
  = Raised main_id "Size must be scalar." s.
Proof.
  intros Hn. unfold mexFunction.
  do 6 (erewrite mex_bind_done by reflexivity).
  apply mex_bind_raised. cbn [mxGetNumberOfElements].
  by rewrite bool_decide_eq_true_2.
Qed.

Lemma size_not_double in_indices in_size s :
  mxGetClassID in_indices = mxCELL_CLASS →
  mxGetClassID in_size ≠ mxDOUBLE_CLASS →
  mexFunction 1 2 [in_indices; in_size] s
  = Raised main_id "Size must be double." s.
Proof.
  intros Hc Hd. unfold mexFunction.
  do 4 (erewrite mex_bind_done by reflexivity).
  erewrite mex_bind_done; cycle 1.
  { rewrite bool_decide_eq_false_2 by (by intros H). reflexivity. }
  apply mex_bind_raised. by rewrite bool_decide_eq_true_2.
Qed.

Lemma indices_not_cell in_indices in_size s :
  mxGetClassID in_indices ≠ mxCELL_CLASS →
  mexFunction 1 2 [in_indices; in_size] s
  = Raised main_id "Indices must be cell array." s.
Proof.
  intros Hc. unfold mexFunction.
  do 4 (erewrite mex_bind_done by reflexivity).
  apply mex_bind_raised. by rewrite bool_decide_eq_true_2.
Qed.

(** C9. With size 0, an empty index set gets an empty mask; an empty
    batch gets an empty result whatever the size; and the size of an
    empty batch is still checked to be a scalar. *)
Theorem empty_cases :
  (∀ (indexBatch : list (list Z)) (length : spec_float) (i : nat),
     double_to_size_t length = Some 0 →
     Forall (in_range 0) indexBatch →
     indexBatch !! i = Some [] →
     ∃ result, convert (uint64_cells indexBatch) length = Some result
               ∧ result !! i = Some []) ∧
  (∀ (length : spec_float) (size : Z),
     double_to_size_t length = Some size →
     convert [] length = Some []) ∧
  (∀ lengths : list spec_float,
     List.length lengths ≠ 1%nat →
     call 1 2 [mxCell []; mxDouble lengths]
     = Raised main_id "Size must be scalar." init_state).
Proof.
  split_and!.
  - intros indexBatch length i Hsize Hvalid Hi.
    exists (mask_of 0 <$> indexBatch). split; [by apply convert_valid|].
    by rewrite list_lookup_fmap, Hi.
  - intros length size Hsize.
    exact (convert_valid [] length size Hsize (List.Forall_nil _)).
  - intros lengths Hn. by apply size_not_scalar.
Qed.

Example scenario_1 :
  convert [Some (mxUint64 [0; 2]); Some (mxUint64 [1])] (double_of_Z 3)
  = Some [[true; false; true]; [false; true; false]].
Proof. reflexivity. Qed.

Example scenario_2 :
  convert [Some (mxUint64 [])] (double_of_Z 5) = Some [[false; false; false; false; false]].
Proof. reflexivity. Qed.

Example scenario_5 : convert [Some (mxUint64 [0; 0; 0])] (double_of_Z 1) = Some [[true]].
Proof. reflexivity. Qed.

Example empty_mask_at_size_0 : convert [Some (mxUint64 [])] (double_of_Z 0) = Some [[]].
Proof. reflexivity. Qed.

Example empty_batch : convert [] (double_of_Z 10) = Some [].
Proof. reflexivity. Qed.

(** C10. The size 2.7 (a valid binary64 value that is not integral) passes
    every check: it is truncated to 2, the call returns, no error is
    raised, and every mask has 2 elements. *)
Theorem fractional_length_truncated (indexBatch : list (list Z)) :
  Forall (in_range 2) indexBatch →
  valid_binary 53 1024 double_2_7 = true ∧
  is_integral double_2_7 = false ∧
  double_to_size_t double_2_7 = Some 2 ∧
  ∃ s result,
    call 1 2 [mxCell (uint64_cells indexBatch); mxDouble [double_2_7]] = Done () s ∧
    output s = Some result ∧
    List.length result = List.length indexBatch ∧
    Forall (λ mask, List.length mask = 2%nat) result.
Proof.
  intros Hvalid. split_and!; [reflexivity..|].
  destruct (call_valid indexBatch double_2_7 2) as (s & Hs & Hout); [reflexivity|done|].
  exists s, (mask_of 2 <$> indexBatch). split_and!; [done|done|by rewrite length_fmap|].
  apply Forall_fmap, Forall_forall. intros inds _. cbn.
  by rewrite mask_of_length.
Qed.

Lemma fractional_length_truncated_witness :
  valid_binary 53 1024 double_2_7 = true ∧
  is_integral double_2_7 = false ∧
  double_to_size_t double_2_7 = Some 2 ∧
  ∃ s result,
    call 1 2 [mxCell (uint64_cells [[0; 1]; []]); mxDouble [double_2_7]] = Done () s ∧
    output s = Some result ∧
    List.length result = List.length [[0; 1]; []] ∧
    Forall (λ mask, List.length mask = 2%nat) result.
Proof.
  apply (fractional_length_truncated [[0; 1]; []]).
  repeat constructor; lia.
Defined.

Example fractional_length_masks :
  convert [Some (mxUint64 [0; 1]); Some (mxUint64 [])] double_2_7
  = Some [[true; true]; [false; false]].
Proof. reflexivity. Qed.

(** ** Calls that do not return *)

(** C4. What the claim holds for every [k] fails from [k = 1] on: when
    an index set after the first is of another class (the ones before it
    being in-range uint64 vectors), line 52 destroys each mask built so
    far and line 55 destroys the cell matrix whose cells still point at
    them, so the first mask is destroyed twice.  That is undefined, and it
    comes before the error call of line 56. *)
Theorem element_type_error_double_free
    (cells : list (option mxArray)) (length : spec_float) (size : Z) (k : nat) (a : mxArray) :
  double_to_size_t length = Some size →
  (0 < k)%nat →
  cells !! k = Some (Some a) →
  mxGetClassID a ≠ mxUINT64_CLASS →
  (∀ j, (j < k)%nat →
        ∃ inds, cells !! j = Some (Some (mxUint64 inds)) ∧ in_range size inds) →
  call 1 2 [mxCell cells; mxDouble [length]] = Undefined (DoubleFree 1%nat).
Proof.
  intros Hsize Hpos Hk Hcls Hbefore.
  unfold call. rewrite mexFunction_checked.
  erewrite mex_bind_done; cycle 1.
  { unfold to_size_t. rewrite Hsize. reflexivity. }
  destruct (loop_inv_start cells size init_state) as (s0 & Hs0 & Hinv0); [done..|].
  rewrite (mex_bind_done _ _ _ _ _ Hs0). cbn [next init_state] in *.
  rewrite for_loop_0. apply mex_bind_undefined.
  apply (for_steps_stop (loop_inv cells size 0%nat)
           (λ o, o = Undefined (DoubleFree 1%nat)) _ k).
  - apply lookup_lt_Some in Hk. lia.
  - done.
  - intros j s1 Hj Hinv. destruct (Hbefore j) as (inds & Hc & Hr); [lia|].
    by apply (convert_step_ok _ _ _ _ _ inds).
  - intros s1 Hinv.
    rewrite (convert_step_bad_class_later _ _ _ _ _ _ Hpos Hinv Hk Hcls).
    split; [done|]. intros s2. discriminate.
Qed.

(** [fast_assign_true({uint64(1), []}, 3)]: the second index set is a
    double. *)
Lemma element_type_error_double_free_witness :
  call 1 2 [mxCell [Some (mxUint64 [1]); Some (mxDouble [])]; mxDouble [double_of_Z 3]]
  = Undefined (DoubleFree 1%nat).
Proof.
  apply (element_type_error_double_free
           [Some (mxUint64 [1]); Some (mxDouble [])] (double_of_Z 3) 3 1 (mxDouble [])).
  - reflexivity.
  - lia.
  - reflexivity.
  - discriminate.
  - intros j Hj. exists [1]. assert (j = 0%nat) as -> by lia.
    split; [reflexivity|]. repeat constructor; lia.
Defined.

(** X11. When it is the first index set that is of another class, nothing
    has been built yet: the empty cell matrix is destroyed and the uint64
    error is raised, with nothing left in the store and [plhs[0]] unset,
    whatever the later cells hold. *)
Theorem element_type_error_first
    (cells : list (option mxArray)) (d : spec_float) (size : Z) (a : mxArray) :
  double_to_size_t d = Some size →
  cells !! 0%nat = Some (Some a) →
  mxGetClassID a ≠ mxUINT64_CLASS →
  ∃ s, call 1 2 [mxCell cells; mxDouble [d]]
       = Raised main_id "Indices must be uint64." s
       ∧ heap s = ∅ ∧ plhs0 s = None.
Proof.
  intros Hsize Hk Hcls.
  unfold call. rewrite mexFunction_checked.
  erewrite mex_bind_done; cycle 1.
  { unfold to_size_t. rewrite Hsize. reflexivity. }
  destruct (loop_inv_start cells size init_state) as (s0 & Hs0 & Hinv0); [done..|].
  rewrite (mex_bind_done _ _ _ _ _ Hs0). cbn [next init_state] in *.
  rewrite for_loop_0.
  destruct cells as [|c cells]; [done|]. cbn [List.length for_steps].
  destruct (convert_step_bad_class_first _ _ _ _ _ Hinv0 Hk Hcls) as (s1 & Hs1 & ?).
  exists s1. split; [|done].
  apply mex_bind_raised. by apply mex_bind_raised.
Qed.

(** [fast_assign_true({[], uint64(9)}, 3)] *)
Lemma element_type_error_first_witness :
  ∃ s, call 1 2 [mxCell [Some (mxDouble []); Some (mxUint64 [9])]; mxDouble [double_of_Z 3]]
       = Raised main_id "Indices must be uint64." s
       ∧ heap s = ∅ ∧ plhs0 s = None.
Proof.
  apply (element_type_error_first [Some (mxDouble []); Some (mxUint64 [9])]
           (double_of_Z 3) 3 (mxDouble [])).
  - reflexivity.
  - reflexivity.
  - discriminate.
Defined.

(** The scatter loop when position [j0] holds the first value outside the
    buffer: the store at that value is outside the array. *)
Lemma scatter_loop_out_of_range h ptr (j0 : nat) (v : Z) s data :
  heap s !! h = Some (ObjLogical data) →
  ptr !! j0 = Some v →
  ¬ (0 ≤ v < Z.of_nat (length data)) →
  (∀ j w, (j < j0)%nat → ptr !! j = Some w → 0 ≤ w < Z.of_nat (length data)) →
  for_steps (length ptr) 0 (scatter_step ptr h) s = Undefined (OutOfBoundsWrite h v).
Proof.
  intros Hh Hv Hout Hbefore.
  apply (for_steps_stop
           (λ _ s0, ∃ data0, heap s0 !! h = Some (ObjLogical data0)
                             ∧ length data0 = length data)
           (λ o, o = Undefined (OutOfBoundsWrite h v)) _ j0).
  - apply lookup_lt_Some in Hv. lia.
  - by exists data.
  - intros j s0 Hj (data0 & Hd0 & Hlen).
    destruct (lookup_lt_is_Some_2 ptr j) as [w Hw].
    { apply lookup_lt_Some in Hv. lia. }
    eexists. split.
    + unfold scatter_step, load. rewrite Hw.
      erewrite mex_bind_done by reflexivity.
      apply store_logical_in_range; [done|]. rewrite Hlen. apply (Hbefore j); [lia|done].
    + eexists. cbn [heap]. split; [apply lookup_insert_eq|].
      by rewrite length_insert.
  - intros s0 (data0 & Hd0 & Hlen).
    assert (Hstep : scatter_step ptr h j0 s0 = Undefined (OutOfBoundsWrite h v)).
    { unfold scatter_step, load. rewrite Hv.
      erewrite mex_bind_done by reflexivity.
      apply (store_logical_out_of_range _ _ _ _ data0); [done|]. by rewrite Hlen. }
    split; [done|]. intros s1. by rewrite Hstep.
Qed.

(** C2. When index set [k] is the first with a value outside [0, size),
    no range error is raised and the call does not return either: the
    gateway stores [true] at that value, outside the mask it is filling
    (the mask is the array created after [out] and the [k] masks before
    it). *)
Theorem range_not_enforced
    (cells : list (option mxArray)) (length : spec_float) (size : Z) (k : nat) (inds : list Z) (v : Z) :
  double_to_size_t length = Some size →
  cells !! k = Some (Some (mxUint64 inds)) →
  first_out_of_range size inds = Some v →
  (∀ j, (j < k)%nat → ∃ inds', cells !! j = Some (Some (mxUint64 inds')) ∧ in_range size inds') →
  call 1 2 [mxCell cells; mxDouble [length]] = Undefined (OutOfBoundsWrite (S k) v).
Proof.
  intros Hsize Hk Hfirst Hbefore.
  unfold first_out_of_range in Hfirst.
  destruct (list_find _ inds) as [[j0 v']|] eqn:Hfind; [|done].
  cbn in Hfirst. assert (v' = v) as -> by congruence. clear Hfirst.
  apply list_find_Some in Hfind as (Hj0 & Hv & Hlow).
  pose proof (double_to_size_t_range _ _ Hsize) as Hsz.
  unfold call. rewrite mexFunction_checked.
  erewrite mex_bind_done; cycle 1.
  { unfold to_size_t. rewrite Hsize. reflexivity. }
  destruct (loop_inv_start cells size init_state) as (s0 & Hs0 & Hinv0); [done..|].
  rewrite (mex_bind_done _ _ _ _ _ Hs0). cbn [next init_state] in *.
  rewrite for_loop_0. apply mex_bind_undefined.
  apply (for_steps_stop (loop_inv cells size 0%nat)
           (λ o, o = Undefined (OutOfBoundsWrite (S k) v)) _ k).
  - apply lookup_lt_Some in Hk. lia.
  - done.
  - intros j s1 Hj Hinv. destruct (Hbefore j) as (inds' & Hc & Hr); [lia|].
    by apply (convert_step_ok _ _ _ _ _ inds').
  - intros s1 (Hnext & _).
    assert (Hstep : convert_step (mxCell cells) size 0%nat k s1
                    = Undefined (OutOfBoundsWrite (S k) v)).
    { unfold convert_step.
      rewrite (mex_bind_done _ _ _ _ _ (get_cell_arg _ _ _ _ Hk)).
      erewrite mex_bind_done; cycle 1.
      { cbn [mxGetClassID]. rewrite bool_decide_eq_false_2 by (intros H; by apply H).
        reflexivity. }
      erewrite mex_bind_done by reflexivity.
      apply mex_bind_undefined.
      rewrite for_loop_0. cbn [mxGetNumberOfElements mxGetData].
      replace (S k) with (next s1) by (rewrite Hnext; lia).
      eapply (scatter_loop_out_of_range _ _ j0).
      - cbn [heap]. apply lookup_insert_eq.
      - done.
      - rewrite length_replicate. lia.
      - intros j w Hj Hw. rewrite length_replicate.
        specialize (Hlow j w Hw Hj). cbv beta in Hlow.
        destruct (decide (0 ≤ w < size)); [lia|done]. }
    split; [done|]. intros s2. by rewrite Hstep.
Qed.

(** Scenario 3 of the specification: [indexBatch = [[4]]], [length = 3]. *)
Lemma range_not_enforced_witness :
  call 1 2 [mxCell [Some (mxUint64 [4])]; mxDouble [double_of_Z 3]]
  = Undefined (OutOfBoundsWrite 1%nat 4).
Proof.
  apply (range_not_enforced [Some (mxUint64 [4])] (double_of_Z 3) 3 0 [4] 4).
  - reflexivity.
  - reflexivity.
  - reflexivity.
  - intros j Hj. lia.
Defined.

Example scenario_3_no_masks : convert [Some (mxUint64 [4])] (double_of_Z 3) = None.
Proof. reflexivity. Qed.

(** ** What the size check covers *)

(** C5, as stated, fails: the size -0.5 is a negative scalar, and the call
    returns (with one empty mask) instead of failing. *)
Lemma negative_length_accepted :
  ¬ (∀ (indexBatch : list (option mxArray)) (length : spec_float),
       is_negative length = true →
       ∃ id msg s, call 1 2 [mxCell indexBatch; mxDouble [length]] = Raised id msg s).
Proof.
  intros H. destruct (H [Some (mxUint64 [])] double_neg_half) as (id & msg & s & Hs).
  - reflexivity.
  - discriminate Hs.
Qed.

Example negative_half_is_a_double : valid_binary 53 1024 double_neg_half = true.
Proof. reflexivity. Qed.

Example negative_half_masks : convert [Some (mxUint64 [])] double_neg_half = Some [[]].
Proof. reflexivity. Qed.

(** At -1 the conversion to [size_t] itself is undefined; no error is
    raised there either. *)
Example negative_one_not_rejected :
  call 1 2 [mxCell []; mxDouble [double_of_Z (-1)]]
  = Undefined (UnrepresentableSize (double_of_Z (-1))).
Proof. reflexivity. Qed.

(** C5, amended. The size argument must be a double array with exactly
    one element.  Any other class fails with "Size must be double.", any
    other element count with "Size must be scalar."; either way the call
    stops in the state it started in (nothing created, [plhs[0]] unset)
    and returns no masks. *)
Theorem size_shape_checked (indexBatch : list (option mxArray)) (in_size : mxArray) :
  (∀ d, in_size ≠ mxDouble [d]) →
  ∃ msg,
    call 1 2 [mxCell indexBatch; in_size] = Raised main_id msg init_state ∧
    msg = (if decide (mxGetClassID in_size = mxDOUBLE_CLASS)
           then "Size must be scalar." else "Size must be double.") ∧
    result 1 2 [mxCell indexBatch; in_size] = None.
Proof.
  intros Hshape.
  assert (Hcall : ∃ msg,
            call 1 2 [mxCell indexBatch; in_size] = Raised main_id msg init_state ∧
            msg = (if decide (mxGetClassID in_size = mxDOUBLE_CLASS)
                   then "Size must be scalar." else "Size must be double.")).
  { case_decide as Hcls.
    - destruct in_size as [|pr| | |c]; try discriminate Hcls.
      + eexists. split; [|reflexivity]. apply size_not_scalar.
        destruct pr as [|d [|]]; cbn; try lia. by destruct (Hshape d).
      + by destruct c.
    - eexists. split; [|reflexivity]. by apply size_not_double. }
  destruct Hcall as (msg & Hcall & Hmsg). exists msg.
  split_and!; [done..|]. unfold result. by rewrite Hcall.
Qed.

Lemma size_shape_checked_witness :
  ∃ msg,
    call 1 2 [mxCell [Some (mxUint64 [0])]; mxDouble [double_of_Z 3; double_of_Z 3]]
      = Raised main_id msg init_state ∧
    msg = (if decide (mxGetClassID (mxDouble [double_of_Z 3; double_of_Z 3])
                      = mxDOUBLE_CLASS)
           then "Size must be scalar." else "Size must be double.") ∧
    result 1 2 [mxCell [Some (mxUint64 [0])]; mxDouble [double_of_Z 3; double_of_Z 3]] = None.
Proof.
  apply (size_shape_checked [Some (mxUint64 [0])] (mxDouble [double_of_Z 3; double_of_Z 3])).
  intros d. discriminate.
Defined.

(** ** What an error tells the caller *)











Ltac when_cases H c :=
  rewrite mex_bind_unfold in H;
  destruct (decide c) as [?Hc|?Hc];
  [ rewrite bool_decide_eq_true_2 in H by assumption; cbn [when] in H
  | rewrite bool_decide_eq_false_2 in H by assumption; rewrite when_false in H ].




(** * Further properties of the gateway *)

(** ** The checks before the loop, in order *)

(** X1. Each of the five checks that precede the loop, when it is the first
    to fail, ends the call with its own message and with the store as it
    was at entry: nothing has been created and [plhs[0]] is unset.  The
    host passes [nrhs] arguments in [prhs]. *)
Theorem early_errors (f : failure) (nlhs nrhs : Z) (prhs : list mxArray) :
  Z.of_nat (length prhs) = nrhs →
  f ≠ IndicesNotUint64 →
  cause f nlhs nrhs prhs →
  call nlhs nrhs prhs = Raised main_id (message f) init_state.
Proof.
  intros Hn Hf Hcause. unfold call, mexFunction.
  destruct f; cbn [cause message] in *; [| | | | |done].
  - apply mex_bind_raised. by rewrite bool_decide_eq_true_2.
  - destruct Hcause as [-> Hl].
    erewrite mex_bind_done by reflexivity.
    apply mex_bind_raised. by rewrite bool_decide_eq_true_2.
  - destruct Hcause as (-> & -> & a & H0 & Hc).
    destruct prhs as [|a' [|b [|]]]; cbn in Hn; try lia.
    injection H0 as ->.
    do 4 (erewrite mex_bind_done by reflexivity).
    apply mex_bind_raised. by rewrite bool_decide_eq_true_2.
  - destruct Hcause as (-> & -> & a & b & H0 & H1 & Hc & Hd).
    destruct prhs as [|a' [|b' [|]]]; cbn in Hn; try lia.
    injection H0 as ->. injection H1 as ->.
    by apply size_not_double.
  - destruct Hcause as (-> & -> & a & b & H0 & H1 & Hc & Hd & Hs).
    destruct prhs as [|a' [|b' [|]]]; cbn in Hn; try lia.
    injection H0 as ->. injection H1 as ->.
    destruct a as [cells| | | |c]; try discriminate Hc; [|by destruct c].
    destruct b as [|pr| | |c]; try discriminate Hd; [|by destruct c].
    by apply size_not_scalar.
Qed.

(** A statement call (no output requested) on arguments that are
    otherwise fine. *)
Lemma early_errors_witness :
  call 0 2 [mxCell [Some (mxUint64 [0; 2])]; mxDouble [double_of_Z 3]]
  = Raised main_id (message WrongOutputs) init_state.
Proof.
  apply (early_errors WrongOutputs 0 2 [mxCell [Some (mxUint64 [0; 2])]; mxDouble [double_of_Z 3]]).
  - reflexivity.
  - discriminate.
  - cbn. split; [reflexivity|discriminate].
Defined.

(** ** How a call that passes the checks ends *)

Lemma mex_bind_stopped (m : mex ()) (f : () → mex ()) s :
  (∀ s', m s ≠ Done () s') → (m ≫= f) s = m s.
Proof.
  intros H. rewrite mex_bind_unfold. destruct (m s) as [[] s'| |]; [|done..].
  by destruct (H s').
Qed.

(** One round on a uint64 index set with a value out of range. *)
Lemma convert_step_out_of_range cells size out k s inds v :
  loop_inv cells size out k s →
  cells !! k = Some (Some (mxUint64 inds)) →
  first_out_of_range size inds = Some v →
  convert_step (mxCell cells) size out k s
  = Undefined (OutOfBoundsWrite (out + 1 + k)%nat v).
Proof.
  intros (Hnext & _) Hk Hfirst. unfold first_out_of_range in Hfirst.
  destruct (list_find _ inds) as [[j0 v']|] eqn:Hfind; [|done].
  cbn in Hfirst. assert (v' = v) as -> by congruence. clear Hfirst.
  apply list_find_Some in Hfind as (Hj0 & Hv & Hlow).
  unfold convert_step.
  rewrite (mex_bind_done _ _ _ _ _ (get_cell_arg _ _ _ _ Hk)).
  erewrite mex_bind_done; cycle 1.
  { cbn [mxGetClassID]. rewrite bool_decide_eq_false_2 by (intros H; by apply H).
    reflexivity. }
  erewrite mex_bind_done by reflexivity.
  apply mex_bind_undefined.
  rewrite for_loop_0. cbn [mxGetNumberOfElements mxGetData].
  rewrite <- Hnext.
  eapply (scatter_loop_out_of_range _ _ j0).
  - cbn [heap]. apply lookup_insert_eq.
  - done.
  - rewrite length_replicate. lia.
  - intros j w Hj Hw. rewrite length_replicate.
    specialize (Hlow j w Hw Hj). cbv beta in Hlow.
    destruct (decide (0 ≤ w < size)); [lia|done].
Qed.

Lemma cell_ok_true size c :
  cell_ok size c = true ↔ ∃ inds, c = Some (mxUint64 inds) ∧ in_range size inds.
Proof.
  split.
  - destruct c as [[| |inds| |]|]; cbn; try discriminate.
    intros H. apply bool_decide_eq_true in H. by exists inds.
  - intros (inds & -> & H). cbn. by apply bool_decide_eq_true.
Qed.

Lemma cells_ok_batch size cells :
  Forall (λ a, cell_ok size a = true) cells →
  ∃ batch, cells = uint64_cells batch ∧ Forall (in_range size) batch.
Proof.
  induction 1 as [|a cells Ha _ (batch & -> & Hb)].
  - by exists [].
  - apply cell_ok_true in Ha as (inds & -> & Hin).
    exists (inds :: batch). split; [done|by constructor].
Qed.

Lemma first_out_of_range_is_Some size inds :
  ¬ in_range size inds → ∃ v, first_out_of_range size inds = Some v.
Proof.
  intros Hnot. unfold first_out_of_range.
  destruct (list_find _ inds) as [[j v]|] eqn:Hfind; [by exists v|].
  exfalso. apply Hnot. apply list_find_None in Hfind.
  unfold in_range. eapply Forall_impl; [exact Hfind|].
  intros v Hv. cbv beta in Hv. by destruct (decide (0 ≤ v < size)).
Qed.

(** A call stops with what round [k] stops with when the rounds before
    it are on in-range uint64 index sets. *)
Lemma call_stops_at (Q : outcome () → Prop) cells d size (k : nat) :
  double_to_size_t d = Some size →
  (k < length cells)%nat →
  (∀ j a, (j < k)%nat → cells !! j = Some a → cell_ok size a = true) →
  (∀ s, loop_inv cells size 0 k s →
        Q (convert_step (mxCell cells) size 0%nat k s)
        ∧ ∀ s', convert_step (mxCell cells) size 0%nat k s ≠ Done () s') →
  Q (call 1 2 [mxCell cells; mxDouble [d]]).
Proof.
  intros Hsize Hk Hbefore Hstop.
  unfold call. rewrite mexFunction_checked.
  erewrite mex_bind_done; cycle 1.
  { unfold to_size_t. rewrite Hsize. reflexivity. }
  destruct (loop_inv_start cells size init_state) as (s0 & Hs0 & Hinv0); [done..|].
  rewrite (mex_bind_done _ _ _ _ _ Hs0). cbn [next init_state] in *.
  rewrite for_loop_0.
  assert (Hloop : Q (for_steps (length cells) 0
                       (convert_step (mxCell cells) size 0%nat) s0)
                  ∧ ∀ s', for_steps (length cells) 0
                            (convert_step (mxCell cells) size 0%nat) s0 ≠ Done () s').
  { apply (for_steps_stop (loop_inv cells size 0%nat)
             (λ o, Q o ∧ ∀ s', o ≠ Done () s') _ k); [lia|done| |].
    - intros j s1 Hj Hinv.
      destruct (lookup_lt_is_Some_2 cells j) as [a Ha]; [lia|].
      destruct (proj1 (cell_ok_true size a)) as (inds & -> & Hr).
      { apply (Hbefore j); [lia|done]. }
      by apply (convert_step_ok _ _ _ _ _ inds).
    - intros s1 Hinv. destruct (Hstop s1 Hinv) as [HQ Hnd]. done. }
  destruct Hloop as [HQ Hnd]. by rewrite mex_bind_stopped.
Qed.

(** X2. The index sets before the first one that is not an in-range
    uint64 vector are converted, and that first one alone settles what
    comes next, whatever the later cells hold (they have not been looked
    at by then).  With no such cell the call returns one mask per index
    set.  A uint64 vector: the store for its first out-of-range value
    falls outside the mask being filled.  A NULL cell: its class is read
    through the NULL pointer.  Another class in the first cell: the
    uint64 error is raised and nothing is left in the store.  Another
    class in a later cell: the cleanup destroys the first mask twice,
    before the error call.  In the three undefined cases this is the
    first undefined step of the run, and nothing is said about the run
    after it. *)
Theorem first_offender_decides (cells : list (option mxArray)) (d : spec_float) (size : Z) :
  double_to_size_t d = Some size →
  match list_find (λ c, cell_ok size c = false) cells with
  | None =>
      ∃ s masks, call 1 2 [mxCell cells; mxDouble [d]] = Done () s
                 ∧ output s = Some masks ∧ length masks = length cells
  | Some (k, Some (mxUint64 inds)) =>
      ∃ v, first_out_of_range size inds = Some v
           ∧ call 1 2 [mxCell cells; mxDouble [d]]
             = Undefined (OutOfBoundsWrite (S k) v)
  | Some (_, None) =>
      call 1 2 [mxCell cells; mxDouble [d]] = Undefined NullPointer
  | Some (k, Some _) =>
      match k with
      | O => ∃ s, call 1 2 [mxCell cells; mxDouble [d]]
                  = Raised main_id (message IndicesNotUint64) s
                  ∧ heap s = ∅ ∧ plhs0 s = None
      | S _ => call 1 2 [mxCell cells; mxDouble [d]]
               = Undefined (DoubleFree 1%nat)
      end
  end.
Proof.
  intros Hsize.
  destruct (list_find _ cells) as [[k c]|] eqn:Hfind.
  - apply list_find_Some in Hfind as (Hk & Hbad & Hbefore).
    assert (Hlt : (k < length cells)%nat) by (by eapply lookup_lt_Some).
    assert (Hok : ∀ j b, (j < k)%nat → cells !! j = Some b → cell_ok size b = true).
    { intros j b Hj Hb. specialize (Hbefore j b Hb Hj). cbv beta in Hbefore.
      by destruct (cell_ok size b). }
    assert (Hclass : ∀ a, c = Some a → mxGetClassID a ≠ mxUINT64_CLASS →
              match k with
              | O => ∃ s, call 1 2 [mxCell cells; mxDouble [d]]
                          = Raised main_id (message IndicesNotUint64) s
                          ∧ heap s = ∅ ∧ plhs0 s = None
              | S _ => call 1 2 [mxCell cells; mxDouble [d]]
                       = Undefined (DoubleFree 1%nat)
              end).
    { intros a -> Hcls. destruct k as [|k'].
      - apply (call_stops_at (λ o, ∃ s, o = Raised main_id (message IndicesNotUint64) s
                                        ∧ heap s = ∅ ∧ plhs0 s = None) _ _ size 0%nat);
          [done..|].
        intros s1 Hinv.
        destruct (convert_step_bad_class_first _ _ _ _ _ Hinv Hk Hcls) as (s2 & Hs2 & ?).
        split; [by exists s2|]. intros s3. by rewrite Hs2.
      - apply (call_stops_at (λ o, o = Undefined (DoubleFree 1%nat)) _ _ size (S k'));
          [done..|].
        intros s1 Hinv.
        rewrite (convert_step_bad_class_later _ _ _ _ _ _ (Nat.lt_0_succ k') Hinv Hk Hcls).
        split; [done|]. intros s2. discriminate. }
    destruct c as [a|].
    + destruct a as [| |inds| |cls]; try (by apply (Hclass _ eq_refl)).
      * cbn in Hbad. apply bool_decide_eq_false in Hbad.
        destruct (first_out_of_range_is_Some _ _ Hbad) as [v Hv].
        exists v. split; [done|].
        apply (call_stops_at (λ o, o = Undefined (OutOfBoundsWrite (S k) v)) _ _ size k);
          [done..|].
        intros s1 Hinv.
        rewrite (convert_step_out_of_range _ _ _ _ _ _ _ Hinv Hk Hv).
        split; [done|]. intros s2. discriminate.
      * apply (Hclass _ eq_refl). by destruct cls.
    + apply (call_stops_at (λ o, o = Undefined NullPointer) _ _ size k); [done..|].
      intros s1 Hinv. rewrite (convert_step_null _ _ _ _ _ Hk).
      split; [done|]. intros s2. discriminate.
  - apply list_find_None in Hfind.
    destruct (cells_ok_batch size cells) as (batch & -> & Hvalid).
    { eapply Forall_impl; [exact Hfind|]. intros a Ha. cbv beta in Ha.
      by destruct (cell_ok size a). }
    destruct (call_valid _ _ _ Hsize Hvalid) as (s & Hs & Hout).
    exists s, (mask_of size <$> batch). split_and!; [done..|].
    unfold uint64_cells. by rewrite !length_fmap.
Qed.

(** A batch whose first index set is a double and whose second holds a
    value out of range: the class error is raised, the second index set
    is never looked at. *)
Lemma first_offender_decides_witness :
  match list_find (λ c, cell_ok 3 c = false)
          [Some (mxDouble []); Some (mxUint64 [9])] with
  | None =>
      ∃ s masks,
        call 1 2 [mxCell [Some (mxDouble []); Some (mxUint64 [9])]; mxDouble [double_of_Z 3]]
        = Done () s
        ∧ output s = Some masks
        ∧ length masks = length [Some (mxDouble []); Some (mxUint64 [9])]
  | Some (k, Some (mxUint64 inds)) =>
      ∃ v, first_out_of_range 3 inds = Some v
           ∧ call 1 2 [mxCell [Some (mxDouble []); Some (mxUint64 [9])]; mxDouble [double_of_Z 3]]
             = Undefined (OutOfBoundsWrite (S k) v)
  | Some (_, None) =>
      call 1 2 [mxCell [Some (mxDouble []); Some (mxUint64 [9])]; mxDouble [double_of_Z 3]]
      = Undefined NullPointer
  | Some (k, Some _) =>
      match k with
      | O => ∃ s, call 1 2 [mxCell [Some (mxDouble []); Some (mxUint64 [9])];
                            mxDouble [double_of_Z 3]]
                  = Raised main_id (message IndicesNotUint64) s
                  ∧ heap s = ∅ ∧ plhs0 s = None
      | S _ => call 1 2 [mxCell [Some (mxDouble []); Some (mxUint64 [9])];
                         mxDouble [double_of_Z 3]]
               = Undefined (DoubleFree 1%nat)
      end
  end.
Proof.
  apply (first_offender_decides [Some (mxDouble []); Some (mxUint64 [9])] (double_of_Z 3) 3).
  reflexivity.
Defined.

Example class_error_in_first_cell :
  call 1 2 [mxCell [Some (mxDouble []); Some (mxUint64 [9])]; mxDouble [double_of_Z 3]]
  = Raised main_id "Indices must be uint64." (mkState ∅ 1%nat None).
Proof. reflexivity. Qed.

Example class_error_in_second_cell :
  call 1 2 [mxCell [Some (mxUint64 [0]); Some (mxDouble []); Some (mxUint64 [9])];
            mxDouble [double_of_Z 3]]
  = Undefined (DoubleFree 1%nat).
Proof. reflexivity. Qed.

Example range_before_class_error :
  call 1 2 [mxCell [Some (mxUint64 [0]); Some (mxUint64 [9]); Some (mxDouble [])];
            mxDouble [double_of_Z 3]]
  = Undefined (OutOfBoundsWrite 2%nat 9).
Proof. reflexivity. Qed.

Example unpopulated_cell :
  call 1 2 [mxCell [Some (mxUint64 [0]); None]; mxDouble [double_of_Z 3]]
  = Undefined NullPointer.
Proof. reflexivity. Qed.

(** With an index set the loop cannot get through, the call does not
    come back within defined behaviour. *)
Lemma offender_not_done cells d size (k : nat) c :
  double_to_size_t d = Some size →
  list_find (λ c, cell_ok size c = false) cells = Some (k, c) →
  ∀ s, call 1 2 [mxCell cells; mxDouble [d]] ≠ Done () s.
Proof.
  intros Hsize Hfind.
  apply list_find_Some in Hfind as (Hk & Hbad & Hbefore).
  apply (call_stops_at (λ o, ∀ s, o ≠ Done () s) _ _ size k); [done| | |].
  - by eapply lookup_lt_Some.
  - intros j b Hj Hb. specialize (Hbefore j b Hb Hj). cbv beta in Hbefore.
    by destruct (cell_ok size b).
  - intros s1 Hinv.
    assert (Hnd : ∀ s', convert_step (mxCell cells) size 0%nat k s1 ≠ Done () s');
      [|done].
    destruct c as [a|]; [|by rewrite (convert_step_null _ _ _ _ _ Hk)].
    destruct (decide (mxGetClassID a = mxUINT64_CLASS)) as [Hcls|Hcls].
    + destruct a as [| |inds| |cls]; try discriminate Hcls; [|by destruct cls].
      cbn in Hbad. apply bool_decide_eq_false in Hbad.
      destruct (first_out_of_range_is_Some _ _ Hbad) as [v Hv].
      rewrite (convert_step_out_of_range _ _ _ _ _ _ _ Hinv Hk Hv). discriminate.
    + destruct k as [|k'].
      * destruct (convert_step_bad_class_first _ _ _ _ _ Hinv Hk Hcls) as (s2 & Hs2 & _).
        rewrite Hs2. discriminate.
      * rewrite (convert_step_bad_class_later _ _ _ _ _ _ (Nat.lt_0_succ k') Hinv Hk Hcls).
        discriminate.
Qed.

(** ** Calls that return *)

Lemma call_args nlhs nrhs prhs a b :
  prhs !! 0%nat = Some a → prhs !! 1%nat = Some b →
  call nlhs nrhs prhs = call nlhs nrhs [a; b].
Proof.
  intros H0 H1. unfold call, mexFunction, arg. rewrite H0, H1. reflexivity.
Qed.

Lemma call_done_checked nlhs nrhs prhs s :
  call nlhs nrhs prhs = Done () s →
  nlhs = 1 ∧ nrhs = 2 ∧
  ∃ cells d, prhs !! 0%nat = Some (mxCell cells) ∧ prhs !! 1%nat = Some (mxDouble [d]).
Proof.
  intros H. unfold call, mexFunction in H.
  when_cases H (nrhs ≠ 2); [discriminate H|].
  when_cases H (nlhs ≠ 1); [discriminate H|].
  rewrite mex_bind_unfold in H. unfold arg at 1 in H.
  destruct (prhs !! 0%nat) as [in_indices|] eqn:H0; [|discriminate H].
  change ((mret in_indices : mex mxArray) init_state)
    with (Done in_indices init_state) in H. cbv beta iota in H.
  rewrite mex_bind_unfold in H. unfold arg at 1 in H.
  destruct (prhs !! 1%nat) as [in_size|] eqn:H1; [|discriminate H].
  change ((mret in_size : mex mxArray) init_state)
    with (Done in_size init_state) in H. cbv beta iota zeta in H.
  when_cases H (mxGetClassID in_indices ≠ mxCELL_CLASS); [discriminate H|].
  when_cases H (mxGetClassID in_size ≠ mxDOUBLE_CLASS); [discriminate H|].
  when_cases H (mxGetNumberOfElements in_size ≠ 1%nat); [discriminate H|].
  destruct in_indices as [cells| | | |c];
    [|first [by destruct Hc1 | by destruct c; destruct Hc1]..].
  destruct in_size as [|pr| | |c];
    [first [by destruct Hc2 | by destruct c; destruct Hc2]|
    |first [by destruct Hc2 | by destruct c; destruct Hc2]..].
  destruct pr as [|d [|]]; try (cbn in Hc3; lia).
  split_and!; [lia..|]. by exists cells, d.
Qed.

(** X3. A size the conversion to [size_t] is not defined on (NaN, an
    infinity, -1 or below, 2^64 or above) is stopped by no check: the
    conversion is reached with it, whatever the index sets are, before
    anything is created. *)
Theorem unrepresentable_size_unchecked (cells : list (option mxArray)) (d : spec_float) :
  double_to_size_t d = None →
  call 1 2 [mxCell cells; mxDouble [d]] = Undefined (UnrepresentableSize d).
Proof.
  intros Hd. unfold call. rewrite mexFunction_checked.
  apply mex_bind_undefined. unfold to_size_t. by rewrite Hd.
Qed.

Lemma unrepresentable_size_unchecked_witness :
  call 1 2 [mxCell [Some (mxUint64 [0])]; mxDouble [S754_nan]]
  = Undefined (UnrepresentableSize S754_nan).
Proof.
  apply (unrepresentable_size_unchecked [Some (mxUint64 [0])] S754_nan). reflexivity.
Defined.

(** X4. The converse of validity, for runs that stay within defined
    behaviour: when every step of a run is defined and the run comes back
    (the outcome [Done]), the call was made with one output and two
    arguments, the first a cell array of uint64 vectors, the second a
    double scalar that converts to a size, every index within that size;
    and what is returned are the masks of the index sets.  A run that
    leaves defined behaviour (on an out-of-range index, say) may come back
    as well; nothing is said about such runs. *)
Theorem defined_return_only_on_valid_input (nlhs nrhs : Z) (prhs : list mxArray) (s : state) :
  call nlhs nrhs prhs = Done () s →
  nlhs = 1 ∧ nrhs = 2 ∧
  ∃ (indexBatch : list (list Z)) (d : spec_float) (size : Z),
    prhs !! 0%nat = Some (mxCell (uint64_cells indexBatch)) ∧
    prhs !! 1%nat = Some (mxDouble [d]) ∧
    double_to_size_t d = Some size ∧
    Forall (in_range size) indexBatch ∧
    output s = Some (mask_of size <$> indexBatch).
Proof.
  intros H.
  destruct (call_done_checked _ _ _ _ H) as (-> & -> & cells & d & H0 & H1).
  split_and!; [done..|].
  rewrite (call_args _ _ _ _ _ H0 H1) in H.
  destruct (double_to_size_t d) as [size|] eqn:Hsize; cycle 1.
  { exfalso. revert H. unfold call. rewrite mexFunction_checked.
    erewrite mex_bind_undefined; [discriminate|].
    unfold to_size_t. by rewrite Hsize. }
  destruct (list_find (λ a, cell_ok size a = false) cells) as [[k a]|] eqn:Hfind.
  - exfalso. by apply (offender_not_done _ _ _ _ _ Hsize Hfind s).
  - apply list_find_None in Hfind.
    destruct (cells_ok_batch size cells) as (batch & -> & Hvalid).
    { eapply Forall_impl; [exact Hfind|]. intros a Ha. cbv beta in Ha.
      by destruct (cell_ok size a). }
    exists batch, d, size. split_and!; [done..|].
    destruct (call_valid _ _ _ Hsize Hvalid) as (s' & Hs' & Hout).
    rewrite Hs' in H. by injection H as <-.
Qed.

Lemma defined_return_only_on_valid_input_witness :
  1 = 1 ∧ 2 = 2 ∧
  ∃ (indexBatch : list (list Z)) (d : spec_float) (size : Z),
    [mxCell [Some (mxUint64 [0; 2]); Some (mxUint64 [1])]; mxDouble [double_of_Z 3]] !! 0%nat
      = Some (mxCell (uint64_cells indexBatch)) ∧
    [mxCell [Some (mxUint64 [0; 2]); Some (mxUint64 [1])]; mxDouble [double_of_Z 3]] !! 1%nat
      = Some (mxDouble [d]) ∧
    double_to_size_t d = Some size ∧
    Forall (in_range size) indexBatch ∧
    output (mkState
              {[ 0%nat := ObjCell [Some 1%nat; Some 2%nat];
                 1%nat := ObjLogical [true; false; true];
                 2%nat := ObjLogical [false; true; false] ]}
              3%nat (Some 0%nat))
    = Some (mask_of size <$> indexBatch).
Proof.
  apply (defined_return_only_on_valid_input 1 2
           [mxCell [Some (mxUint64 [0; 2]); Some (mxUint64 [1])]; mxDouble [double_of_Z 3]]).
  vm_compute. reflexivity.
Defined.

(** ** More about masks *)

Lemma positions_lt size inds p :
  in_range size inds → p ∈ positions inds → (p < Z.to_nat size)%nat.
Proof.
  unfold in_range, positions. rewrite Forall_forall, list_elem_of_fmap.
  intros H (v & -> & Hv). specialize (H v Hv). cbv beta in H. lia.
Qed.

Lemma mask_of_seq size inds :
  mask_of size inds
  = (λ p, bool_decide (p ∈ positions inds)) <$> seq 0 (Z.to_nat size).
Proof.
  apply list_eq. intros p. rewrite mask_of_lookup, list_lookup_fmap.
  case_decide as Hp.
  - by rewrite lookup_seq_lt.
  - by rewrite lookup_seq_ge by lia.
Qed.

Lemma count_true_fmap {A} (f : A → bool) (l : list A) :
  count_true (f <$> l) = length (filter (λ x, f x = true) l).
Proof.
  unfold count_true. induction l as [|x l IH]; [done|].
  rewrite fmap_cons, !filter_cons. destruct (f x) eqn:Hx.
  - rewrite !decide_True by done. cbn. by rewrite IH.
  - rewrite !decide_False by done. done.
Qed.

Lemma count_true_mask_of size inds :
  in_range size inds →
  count_true (mask_of size inds) = length (remove_dups inds).
Proof.
  intros Hr. rewrite mask_of_seq, count_true_fmap.
  rewrite <- (length_fmap Z.to_nat (remove_dups inds)).
  apply Permutation_length, NoDup_Permutation.
  - apply NoDup_filter, NoDup_seq.
  - apply NoDup_fmap_2_strong; [|apply NoDup_remove_dups].
    intros x y Hx Hy Hxy.
    apply (proj1 (elem_of_remove_dups _ _)) in Hx.
    apply (proj1 (elem_of_remove_dups _ _)) in Hy.
    unfold in_range in Hr. rewrite Forall_forall in Hr.
    pose proof (Hr x Hx). pose proof (Hr y Hy). cbv beta in *. lia.
  - intros p. rewrite list_elem_of_filter, elem_of_seq, bool_decide_eq_true.
    assert (Hpos : p ∈ Z.to_nat <$> remove_dups inds ↔ p ∈ positions inds).
    { unfold positions. rewrite !list_elem_of_fmap.
      split; intros (v & -> & Hv); exists v; (split; [done|]);
        by apply elem_of_remove_dups. }
    rewrite Hpos. split; [by intros [? _]|].
    intros Hp. split; [done|]. pose proof (positions_lt _ _ _ Hr Hp). lia.
Qed.

Lemma mask_of_app size inds1 inds2 :
  mask_of size (inds1 ++ inds2)
  = zip_with orb (mask_of size inds1) (mask_of size inds2).
Proof.
  apply list_eq. intros p. rewrite lookup_zip_with, !mask_of_lookup.
  case_decide; [|done]. cbn. f_equal.
  unfold positions. rewrite fmap_app, <- bool_decide_or.
  apply bool_decide_ext, elem_of_app.
Qed.

Lemma mask_of_grow size size' inds :
  in_range size inds → size ≤ size' →
  mask_of size' inds
  = mask_of size inds ++ replicate (Z.to_nat size' - Z.to_nat size) false.
Proof.
  intros Hr Hle. apply list_eq. intros p.
  destruct (decide (p < Z.to_nat size)%nat) as [Hp|Hp].
  - rewrite lookup_app_l by (rewrite mask_of_length; lia).
    rewrite !mask_of_lookup, !decide_True by lia. done.
  - rewrite lookup_app_r by (rewrite mask_of_length; lia).
    rewrite mask_of_length, mask_of_lookup.
    case_decide as Hp'.
    + rewrite lookup_replicate_2 by lia. f_equal.
      apply bool_decide_eq_false. intros Hin.
      pose proof (positions_lt _ _ _ Hr Hin). lia.
    + symmetry. apply lookup_replicate_None. lia.
Qed.

Lemma mask_of_same size inds1 inds2 :
  in_range size inds1 → in_range size inds2 →
  mask_of size inds1 = mask_of size inds2 ↔ (∀ v, v ∈ inds1 ↔ v ∈ inds2).
Proof.
  intros Hr1 Hr2. split.
  - intros Heq.
    assert (Hdir : ∀ i1 i2, in_range size i1 → in_range size i2 →
              mask_of size i1 = mask_of size i2 → ∀ v, v ∈ i1 → v ∈ i2).
    { intros i1 i2 H1 H2 Hm v Hv.
      assert (Hv' : 0 ≤ v < size).
      { unfold in_range in H1. rewrite Forall_forall in H1. by apply H1. }
      assert (Hl : mask_of size i1 !! Z.to_nat v = mask_of size i2 !! Z.to_nat v)
        by (by rewrite Hm).
      rewrite !mask_of_lookup, !decide_True in Hl by lia.
      injection Hl as Hl.
      apply (elem_of_positions v i2); [lia|by eapply in_range_nonneg|].
      apply (bool_decide_eq_true_1 (Z.to_nat v ∈ positions i2)).
      rewrite <- Hl. apply bool_decide_eq_true_2.
      apply (elem_of_positions v i1); [lia|by eapply in_range_nonneg|done]. }
    intros v. split; [by apply (Hdir inds1 inds2)|by apply (Hdir inds2 inds1)].
  - intros Hsame. apply mask_of_ext. intros p. unfold positions.
    rewrite !list_elem_of_fmap. split; intros (v & -> & Hv); exists v;
      (split; [done|]); by apply Hsame.
Qed.

(** ** Further properties of valid calls *)

(** X5. Index sets are converted independently: the masks of two batches put
    one after the other are the masks of the first followed by the masks
    of the second. *)
Theorem batch_concatenation
    (batch1 batch2 : list (list Z)) (length : spec_float) (size : Z) :
  double_to_size_t length = Some size →
  Forall (in_range size) batch1 →
  Forall (in_range size) batch2 →
  ∃ masks1 masks2,
    convert (uint64_cells batch1) length = Some masks1 ∧
    convert (uint64_cells batch2) length = Some masks2 ∧
    convert (uint64_cells (batch1 ++ batch2)) length = Some (masks1 ++ masks2).
Proof.
  intros Hsize H1 H2.
  exists (mask_of size <$> batch1), (mask_of size <$> batch2).
  rewrite !(convert_valid _ _ size); [|done|by apply Forall_app|done..].
  by rewrite fmap_app.
Qed.

Lemma batch_concatenation_witness :
  ∃ masks1 masks2,
    convert (uint64_cells [[0; 2]]) (double_of_Z 3) = Some masks1 ∧
    convert (uint64_cells [[1]; []]) (double_of_Z 3) = Some masks2 ∧
    convert (uint64_cells ([[0; 2]] ++ [[1]; []])) (double_of_Z 3)
    = Some (masks1 ++ masks2).
Proof.
  apply (batch_concatenation [[0; 2]] [[1]; []] (double_of_Z 3) 3).
  - reflexivity.
  - repeat constructor; lia.
  - repeat constructor; lia.
Defined.

(** X6. The mask of two index sets put together is the element-wise OR of
    their masks. *)
Theorem union_is_or (inds1 inds2 : list Z) (length : spec_float) (size : Z) :
  double_to_size_t length = Some size →
  in_range size inds1 →
  in_range size inds2 →
  ∃ mask1 mask2,
    convert [Some (mxUint64 inds1)] length = Some [mask1] ∧
    convert [Some (mxUint64 inds2)] length = Some [mask2] ∧
    convert [Some (mxUint64 (inds1 ++ inds2))] length = Some [zip_with orb mask1 mask2].
Proof.
  intros Hsize H1 H2. exists (mask_of size inds1), (mask_of size inds2).
  split_and!.
  - by apply (convert_valid [inds1] _ size); [|constructor].
  - by apply (convert_valid [inds2] _ size); [|constructor].
  - rewrite <- mask_of_app.
    apply (convert_valid [inds1 ++ inds2] _ size); [done|].
    constructor; [|done]. by apply Forall_app.
Qed.

Lemma union_is_or_witness :
  ∃ mask1 mask2,
    convert [Some (mxUint64 [0; 2])] (double_of_Z 4) = Some [mask1] ∧
    convert [Some (mxUint64 [2; 3])] (double_of_Z 4) = Some [mask2] ∧
    convert [Some (mxUint64 ([0; 2] ++ [2; 3]))] (double_of_Z 4)
    = Some [zip_with orb mask1 mask2].
Proof.
  apply (union_is_or [0; 2] [2; 3] (double_of_Z 4) 4).
  - reflexivity.
  - repeat constructor; lia.
  - repeat constructor; lia.
Defined.

(** X7. Two in-range index sets get the same mask exactly when they have the
    same elements: the mask forgets order and repetition and nothing
    else. *)
Theorem same_mask_iff_same_elements
    (inds1 inds2 : list Z) (length : spec_float) (size : Z) :
  double_to_size_t length = Some size →
  in_range size inds1 →
  in_range size inds2 →
  convert [Some (mxUint64 inds1)] length = convert [Some (mxUint64 inds2)] length
  ↔ (∀ v, v ∈ inds1 ↔ v ∈ inds2).
Proof.
  intros Hsize H1 H2.
  rewrite (convert_valid [inds1] _ size), (convert_valid [inds2] _ size);
    [|done|by constructor|done|by constructor].
  rewrite <- (mask_of_same size) by done. cbn.
  split; [by intros [= ->]|by intros ->].
Qed.

Lemma same_mask_iff_same_elements_witness :
  convert [Some (mxUint64 [0; 2; 0])] (double_of_Z 3) = convert [Some (mxUint64 [2; 0])] (double_of_Z 3)
  ↔ (∀ v, v ∈ [0; 2; 0] ↔ v ∈ [2; 0]).
Proof.
  apply (same_mask_iff_same_elements [0; 2; 0] [2; 0] (double_of_Z 3) 3).
  - reflexivity.
  - repeat constructor; lia.
  - repeat constructor; lia.
Defined.

(** X8. A mask has as many true elements as its index set has distinct
    values. *)
Theorem true_count (inds : list Z) (length : spec_float) (size : Z) :
  double_to_size_t length = Some size →
  in_range size inds →
  ∃ mask, convert [Some (mxUint64 inds)] length = Some [mask]
          ∧ count_true mask = List.length (remove_dups inds).
Proof.
  intros Hsize Hr. exists (mask_of size inds). split.
  - by apply (convert_valid [inds] _ size); [|constructor].
  - by apply count_true_mask_of.
Qed.

Lemma true_count_witness :
  ∃ mask, convert [Some (mxUint64 [0; 2; 0; 2; 4])] (double_of_Z 5) = Some [mask]
          ∧ count_true mask = List.length (remove_dups [0; 2; 0; 2; 4]).
Proof.
  apply (true_count [0; 2; 0; 2; 4] (double_of_Z 5) 5).
  - reflexivity.
  - repeat constructor; lia.
Defined.

(** X9. A larger size only pads: with the same index sets, the masks for the
    larger size are the masks for the smaller one followed by false. *)
Theorem larger_size_pads
    (indexBatch : list (list Z)) (length length' : spec_float) (size size' : Z) :
  double_to_size_t length = Some size →
  double_to_size_t length' = Some size' →
  size ≤ size' →
  Forall (in_range size) indexBatch →
  ∃ masks,
    convert (uint64_cells indexBatch) length = Some masks ∧
    convert (uint64_cells indexBatch) length'
    = Some ((λ mask, mask ++ replicate (Z.to_nat (size' - size)) false) <$> masks).
Proof.
  intros Hsize Hsize' Hle Hvalid. exists (mask_of size <$> indexBatch).
  split; [by apply convert_valid|].
  rewrite (convert_valid _ _ size'); [|done|].
  - f_equal. rewrite <- list_fmap_compose. apply list_fmap_ext.
    intros i inds Hi. cbn.
    rewrite (mask_of_grow size size'); [|by eapply Forall_lookup_1|done].
    pose proof (double_to_size_t_range _ _ Hsize).
    do 2 f_equal. lia.
  - eapply Forall_impl; [exact Hvalid|]. intros inds Hr.
    unfold in_range in *. eapply Forall_impl; [exact Hr|].
    intros v Hv. cbv beta in Hv. lia.
Qed.

Lemma larger_size_pads_witness :
  ∃ masks,
    convert (uint64_cells [[0; 2]; [1]]) (double_of_Z 3) = Some masks ∧
    convert (uint64_cells [[0; 2]; [1]]) (double_of_Z 5)
    = Some ((λ mask, mask ++ replicate (Z.to_nat (5 - 3)) false) <$> masks).
Proof.
  apply (larger_size_pads [[0; 2]; [1]] (double_of_Z 3) (double_of_Z 5) 3 5).
  - reflexivity.
  - reflexivity.
  - lia.
  - repeat constructor; lia.
Defined.

(** ** The store a call leaves behind *)

Lemma call_valid_store (indexBatch : list (list Z)) (d : spec_float) (size : Z) :
  double_to_size_t d = Some size →
  Forall (in_range size) indexBatch →
  ∃ s1, call 1 2 [mxCell (uint64_cells indexBatch); mxDouble [d]]
        = Done () (mkState (heap s1) (next s1) (Some 0%nat))
        ∧ loop_inv (uint64_cells indexBatch) size 0
            (length (uint64_cells indexBatch)) s1.
Proof.
  intros Hsize Hvalid. unfold call. rewrite mexFunction_checked.
  set (cells := uint64_cells indexBatch).
  erewrite mex_bind_done; cycle 1.
  { unfold to_size_t. rewrite Hsize. reflexivity. }
  destruct (loop_inv_start cells size init_state) as (s0 & Hs0 & Hinv0); [done..|].
  rewrite (mex_bind_done _ _ _ _ _ Hs0). cbn [next init_state] in *.
  destruct (for_steps_inv (loop_inv cells size 0%nat)
              (convert_step (mxCell cells) size 0%nat) (length cells) 0%nat s0 Hinv0)
    as (s1 & Hs1 & Hinv1).
  { intros k s' Hk Hinv.
    destruct (lookup_lt_is_Some_2 indexBatch k) as [inds Hinds].
    { unfold cells, uint64_cells in Hk. rewrite length_fmap in Hk. lia. }
    apply (convert_step_ok _ _ _ _ _ inds); [done| |].
    - unfold cells, uint64_cells. by rewrite list_lookup_fmap, Hinds.
    - rewrite Forall_lookup in Hvalid. by eapply Hvalid. }
  rewrite for_loop_0, (mex_bind_done _ _ _ _ _ Hs1).
  exists s1. split; [reflexivity|done].
Qed.

(** X10. On return [plhs[0]] is a cell matrix with one cell per index set.
    Every cell holds an array of its own (no cell is NULL, no two cells
    share an array, none is the cell matrix itself), that array is the
    mask of the index set at the same position, and every array the call
    created is the cell matrix or sits in one of its cells: nothing is
    left behind that the caller cannot reach. *)
Theorem returned_store (indexBatch : list (list Z)) (length : spec_float) (size : Z) :
  double_to_size_t length = Some size →
  Forall (in_range size) indexBatch →
  ∃ s out cells,
    call 1 2 [mxCell (uint64_cells indexBatch); mxDouble [length]] = Done () s ∧
    plhs0 s = Some out ∧
    heap s !! out = Some (ObjCell cells) ∧
    List.length cells = List.length indexBatch ∧
    NoDup cells ∧
    (∀ i c, cells !! i = Some c →
       ∃ h inds, c = Some h ∧ h ≠ out ∧ indexBatch !! i = Some inds ∧
                 heap s !! h = Some (ObjLogical (mask_of size inds))) ∧
    (∀ h, is_Some (heap s !! h) → h = out ∨ Some h ∈ cells).
Proof.
  intros Hsize Hvalid.
  destruct (call_valid_store _ _ _ Hsize Hvalid)
    as (s1 & Hcall & Hnext & _ & (oc & Hout & Hlen & Hoc & Hnull) & Hmasks & Hdom).
  unfold uint64_cells in Hlen, Hoc, Hmasks, Hdom. rewrite length_fmap in *.
  exists (mkState (heap s1) (next s1) (Some 0%nat)), 0%nat, oc.
  cbn [heap plhs0]. split_and!; [done..| | |].
  - apply NoDup_alt. intros i j c Hi Hj.
    pose proof (lookup_lt_Some _ _ _ Hi). pose proof (lookup_lt_Some _ _ _ Hj).
    rewrite Hoc in Hi, Hj by lia. simplify_eq. lia.
  - intros i c Hi. pose proof (lookup_lt_Some _ _ _ Hi) as Hlt.
    rewrite Hoc in Hi by lia. injection Hi as <-.
    destruct (Hmasks i) as (inds & Hc & Hm); [lia|].
    rewrite list_lookup_fmap in Hc.
    destruct (indexBatch !! i) as [inds'|] eqn:Hb; [|done].
    cbn in Hc. injection Hc as ->.
    exists (0 + 1 + i)%nat, inds. split_and!; [done|lia|done..].
  - intros h Hh. specialize (Hdom h Hh).
    destruct (decide (h = 0%nat)) as [->|Hne]; [by left|right].
    apply list_elem_of_lookup. exists (h - 1)%nat.
    rewrite Hoc by lia. do 2 f_equal. lia.
Qed.

Lemma returned_store_witness :
  ∃ s out cells,
    call 1 2 [mxCell (uint64_cells [[0; 2]; [1]]); mxDouble [double_of_Z 3]] = Done () s ∧
    plhs0 s = Some out ∧
    heap s !! out = Some (ObjCell cells) ∧
    List.length cells = List.length [[0; 2]; [1]] ∧
    NoDup cells ∧
    (∀ i c, cells !! i = Some c →
       ∃ h inds, c = Some h ∧ h ≠ out ∧ [[0; 2]; [1]] !! i = Some inds ∧
                 heap s !! h = Some (ObjLogical (mask_of 3 inds))) ∧
    (∀ h, is_Some (heap s !! h) → h = out ∨ Some h ∈ cells).
Proof.
  apply (returned_store [[0; 2]; [1]] (double_of_Z 3) 3).
  - reflexivity.
  - repeat constructor; lia.
Defined.
